(** * create_samples.py: the procedural sample-image generators

    A shallow embedding of [src/create_samples.py].  The five generators
    ([create_landscape_image], [create_portrait_image],
    [create_architecture_image], [create_nature_image],
    [create_abstract_image]) are written against a small model of the
    Python and NumPy operations they call:

    - Python integers are [Z]; [//] is floor division ([Z.div]);
    - exceptions are values of [exn], computations that may raise return a
      [result];
    - [np.random] is a stream of raw integers read through a cursor;
    - an image is an [ndarray]: a shape and nested lists of rows, pixels
      and channels, every stored channel being a [uint8];
    - float expressions ([sin], [cos], true division) are not evaluated:
      the integer each one is truncated to is supplied by a
      [FloatOracle];
    - an array is created only if NumPy accepts its shape: every
      dimension a signed 64-bit integer, none negative, the size in bytes
      a signed 64-bit integer too ([check_shape]).  The check is made for
      the canvas and for the arrays of random integers; the index grids,
      masks and copies a generator builds in between are no larger than
      the noise array it draws afterwards.  Beyond that check memory is
      unbounded, and NumPy's 64-bit integer arithmetic (the squared
      distances of the masks, the sums of the noise pass) is taken as
      exact, as it is on a canvas whose sides are under 2^29 ([fits]). *)

From Stdlib Require Import ZArith List Bool Ascii String Lia.
From stdpp Require Import base tactics option list gmap strings pretty.

Open Scope Z_scope.

(** ** Exceptions and results *)

(** The messages of the [ValueError]s the script can meet. *)
Inductive value_error :=
| NegativeDimensions   (* np.zeros / np.full / size=: negative dimensions are not allowed *)
| DimensionTooLarge    (* a dimension that is no 64-bit integer: Maximum allowed dimension exceeded *)
| ArrayTooBig          (* array is too big; arr.size * arr.dtype.itemsize is larger than the maximum *)
| CouldNotBroadcast    (* could not broadcast input array from shape .. into shape .. *)
| LowGeHigh            (* np.random.randint: low >= high *)
| NotOneDimensional    (* np.random.choice: a must be 1-dimensional *)
| EmptyPopulation      (* np.random.choice: a must be non-empty *)
| ZeroStep.            (* range() arg 3 must not be zero *)

Inductive exn :=
| ValueError (why : value_error)
| IndexError
| ZeroDivisionError.

Inductive result (A : Type) :=
| Ok (a : A)
| Raise (e : exn).
Arguments Ok {A} a.
Arguments Raise {A} e.

(** ** The shapes NumPy accepts

    A dimension is an [npy_intp], a signed 64-bit integer, and so is the
    size of an array in bytes. *)
Definition intp_max : Z := 2 ^ 63 - 1.

Definition intp_min : Z := - 2 ^ 63.

Definition is_intp (d : Z) : bool := (intp_min <=? d) && (d <=? intp_max).

(** The loop over the dimensions when an array is created: a dimension 0
    is passed over, a negative one is refused, and the product of the
    others, which starts at the item size, has to stay an [npy_intp]. *)
Fixpoint check_nbytes (nbytes : Z) (dims : list Z) : result unit :=
  match dims with
  | [] => Ok tt
  | d :: dims' =>
      if d =? 0 then check_nbytes nbytes dims'
      else if d <? 0 then Raise (ValueError NegativeDimensions)
      else if intp_max <? nbytes * d then Raise (ValueError ArrayTooBig)
      else check_nbytes (nbytes * d) dims'
  end.

(** What creating an array of shape [dims] with items of [itemsize] bytes
    checks: the shape converts to [npy_intp]s, then [check_nbytes]. *)
Definition check_shape (itemsize : Z) (dims : list Z) : result unit :=
  if forallb is_intp dims then check_nbytes itemsize dims
  else Raise (ValueError DimensionTooLarge).

(** [np.prod(size) == 0]: over [npy_intp]s the product is taken in 64 bits
    and wraps around. *)
Definition np_prod_is_zero (dims : list Z) : bool :=
  let product := fold_right Z.mul 1 dims in
  if forallb is_intp dims then product mod 2 ^ 64 =? 0 else product =? 0.

(** ** Interpreter state

    [raw] is the stream of the generator's raw outputs and [pos] the number
    of outputs consumed so far.  [wrapped] is a ghost flag: it becomes
    [true] as soon as a value outside [0, 255] is cast to [uint8], that is
    as soon as a store wraps around. *)
Record State := mkState {
  raw : nat -> Z;
  pos : nat;
  wrapped : bool
}.

Definition M (A : Type) : Type := State -> result A * State.

Definition ret {A} (a : A) : M A := fun s => (Ok a, s).

Definition raise {A} (e : exn) : M A := fun s => (Raise e, s).

Definition bind {A B} (m : M A) (k : A -> M B) : M B :=
  fun s =>
    match m s with
    | (Ok a, s') => k a s'
    | (Raise e, s') => (Raise e, s')
    end.

Definition lift {A} (r : result A) : M A := fun s => (r, s).

Declare Scope py_scope.
Delimit Scope py_scope with py.
Notation "x <- m ;; k" := (bind m (fun x => k))
  (at level 100, m at next level, right associativity) : py_scope.
Notation "m ;; k" := (bind m (fun _ => k))
  (at level 100, right associativity) : py_scope.
Open Scope py_scope.

(** [for x in xs: acc = body x acc] *)
Fixpoint for_each {A B} (xs : list B) (body : B -> A -> M A) (acc : A) : M A :=
  match xs with
  | [] => ret acc
  | x :: xs' => acc' <- body x acc ;; for_each xs' body acc'
  end.

(** ** Python builtins *)

(** [range(start, stop, step)] *)
Definition py_range (start stop step : Z) : result (list Z) :=
  if step =? 0 then Raise (ValueError ZeroStep)
  else if 0 <? step then
    Ok (map (fun i => start + Z.of_nat i * step)
            (seq 0 (Z.to_nat ((stop - start + step - 1) / step))))
  else
    Ok (map (fun i => start + Z.of_nat i * step)
            (seq 0 (Z.to_nat ((start - stop - step - 1) / (- step))))).

(** [a / b] on integers raises when [b] is zero; the quotient itself is a
    float and is left to the oracle. *)
Definition true_div_check (b : Z) : M unit :=
  if b =? 0 then raise ZeroDivisionError else ret tt.

(** ** np.random *)

Definition advance (n : nat) (s : State) : State :=
  {| raw := raw s; pos := (pos s + n)%nat; wrapped := wrapped s |}.

(** The [k]-th next draw of [randint(low, high)]: the half-open interval
    [low, high). *)
Definition randint_at (low high : Z) (s : State) (k : nat) : Z :=
  low + raw s (pos s + k)%nat mod (high - low).

(** [np.random.randint(low, high)] *)
Definition randint (low high : Z) : M Z :=
  fun s =>
    if low <? high then (Ok (randint_at low high s 0), advance 1 s)
    else (Raise (ValueError LowGeHigh), s).

(** [np.random.randint(low, high, n)]: [n] 64-bit integers.  A size whose
    product is 0 is answered with [np.empty(n)] before the bounds are
    looked at; otherwise the bounds are checked, then the array is
    created. *)
Definition randint_vec (low high n : Z) : M (list Z) :=
  fun s =>
    if np_prod_is_zero [n] then
      match check_shape 8 [n] with
      | Raise e => (Raise e, s)
      | Ok _ => (Ok [], s)
      end
    else if low <? high then
      match check_shape 8 [n] with
      | Raise e => (Raise e, s)
      | Ok _ =>
          (Ok (map (randint_at low high s) (seq 0 (Z.to_nat n))), advance (Z.to_nat n) s)
      end
    else (Raise (ValueError LowGeHigh), s).

(** [np.random.random() > 0.3].  A double in [0, 1) is a 53-bit integer
    over 2^53; the literal [0.3] is the double 5404319552844595 / 2^54. *)
Definition random_gt_03 : M bool :=
  fun s => (Ok (5404319552844595 <? 2 * (raw s (pos s) mod 2 ^ 53)), advance 1 s).

(** How many dimensions [np.asarray] finds in an element of a Python list. *)
Class ArrayLike (A : Type) := elem_ndim : A -> nat.
#[export] Instance int_arraylike : ArrayLike Z := fun _ => 0%nat.
#[export] Instance str_arraylike : ArrayLike string := fun _ => 0%nat.
#[export] Instance list_arraylike {A} `{ArrayLike A} : ArrayLike (list A) :=
  fun l => S (match l with [] => 0%nat | x :: _ => elem_ndim x end).

(** [np.random.choice(a)] for a Python list [a]. *)
Definition choice {A} `{ArrayLike A} (a : list A) : M A :=
  fun s =>
    match a with
    | [] => (Raise (ValueError EmptyPopulation), s)
    | x :: _ =>
        if (elem_ndim a =? 1)%nat then
          (Ok (nth (Z.to_nat (randint_at 0 (Z.of_nat (length a)) s 0)) a x), advance 1 s)
        else (Raise (ValueError NotOneDimensional), s)
    end.

(** ** uint8 arrays *)

Definition out_of_uint8 (v : Z) : bool := (v <? 0) || (255 <? v).

(** What a cast to [uint8] stores. *)
Definition to_uint8 (v : Z) : Z := v mod 256.

(** Record the cast of [vs] to [uint8] in the ghost flag. *)
Definition note_cast (vs : list Z) : M unit :=
  fun s => (Ok tt, {| raw := raw s; pos := pos s;
                      wrapped := wrapped s || existsb out_of_uint8 vs |}).

(** [np.clip(v, lo, hi)] on one element. *)
Definition np_clip (lo hi v : Z) : Z := Z.min hi (Z.max lo v).

Record ndarray := mkArray {
  shape : nat * nat * nat;
  data : list (list (list Z))
}.

Definition filled (h w c : nat) (v : Z) : ndarray :=
  {| shape := (h, w, c); data := replicate h (replicate w (replicate c v)) |}.

(** [np.full((height, width, channels), v, dtype=np.uint8)];
    [np.zeros] is the case [v = 0]. *)
Definition np_full (height width : Z) (channels : nat) (v : Z) : M ndarray :=
  lift (check_shape 1 [height; width; Z.of_nat channels]) ;;
  note_cast [v] ;;
  ret (filled (Z.to_nat height) (Z.to_nat width) channels (to_uint8 v)).

Definition np_zeros (height width : Z) (channels : nat) : M ndarray :=
  np_full height width channels 0.

(** [np.random.randint(low, high, (height, width, channels), dtype)] for a
    [dtype] of [itemsize] bytes: the draws fill the array in C order; a
    size whose product is 0 is answered with [np.empty(size)], which takes
    no draw and checks no bound. *)
Definition randint_3d_dtype (itemsize low high height width : Z) (channels : nat)
  : M ndarray :=
  fun s =>
    let dims := [height; width; Z.of_nat channels] in
    if np_prod_is_zero dims then
      match check_shape itemsize dims with
      | Raise e => (Raise e, s)
      | Ok _ => (Ok (filled (Z.to_nat height) (Z.to_nat width) channels 0), s)
      end
    else if low <? high then
      match check_shape itemsize dims with
      | Raise e => (Raise e, s)
      | Ok _ =>
          let h := Z.to_nat height in
          let w := Z.to_nat width in
          (Ok {| shape := (h, w, channels);
                 data := map (fun y => map (fun x => map (fun c =>
                           randint_at low high s ((y * w + x) * channels + c))
                           (seq 0 channels)) (seq 0 w)) (seq 0 h) |},
           advance (h * w * channels) s)
      end
    else (Raise (ValueError LowGeHigh), s).

(** [np.random.randint(low, high, (height, width, channels))]: 64-bit
    integers, the default [dtype]. *)
Definition randint_3d (low high height width : Z) (channels : nat) : M ndarray :=
  randint_3d_dtype 8 low high height width channels.

(** Read one element, 0 outside the array. *)
Definition item (a : ndarray) (y x c : nat) : Z :=
  nth c (nth x (nth y (data a) []) []) 0.

(** Map every element together with its position. *)
Definition map_items (f : nat -> nat -> nat -> Z -> Z) (a : ndarray) : ndarray :=
  {| shape := shape a;
     data := imap (fun y row => imap (fun x px => imap (fun c v => f y x c v) px) row) (data a) |}.

(** Overwrite the pixels selected by [sel] with [px]. *)
Definition paint (sel : nat -> nat -> bool) (px : nat -> nat -> list Z) (a : ndarray) : ndarray :=
  {| shape := shape a;
     data := imap (fun y row => imap (fun x old => if sel y x then px y x else old) row) (data a) |}.

(** An integer index into an axis of length [n]: negative indices count
    from the end, anything else out of range raises. *)
Definition index (i : Z) (n : nat) : result nat :=
  if (0 <=? i) && (i <? Z.of_nat n) then Ok (Z.to_nat i)
  else if (- Z.of_nat n <=? i) && (i <? 0) then Ok (Z.to_nat (i + Z.of_nat n))
  else Raise IndexError.

(** A slice [start:stop] or [:] of an axis. *)
Inductive slice :=
| All
| FromTo (start stop : Z).

(** A slice bound is clipped to the axis, never an error. *)
Definition slice_bound (i : Z) (n : nat) : nat :=
  Z.to_nat (if i <? 0 then Z.max (i + Z.of_nat n) 0 else Z.min i (Z.of_nat n)).

Definition in_slice (sl : slice) (n i : nat) : bool :=
  match sl with
  | All => true
  | FromTo start stop => (slice_bound start n <=? i)%nat && (i <? slice_bound stop n)%nat
  end.

(** Broadcast a 1-D value to a pixel of [c] channels. *)
Definition as_pixel (c : nat) (v : list Z) : result (list Z) :=
  if (length v =? c)%nat then Ok v
  else if (length v =? 1)%nat then Ok (replicate c (hd 0 v))
  else Raise (ValueError CouldNotBroadcast).

(** Store the 1-D value [v] in every pixel selected by [sel]. *)
Definition store_pixels (sel : nat -> nat -> bool) (v : list Z) (a : ndarray) : M ndarray :=
  px <- lift (as_pixel (shape a).2 v) ;;
  note_cast px ;;
  ret (paint sel (fun _ _ => map to_uint8 px) a).

(** [image[y, :] = v] for a 1-D [v]. *)
Definition setitem_row (a : ndarray) (y : Z) (v : list Z) : M ndarray :=
  r <- lift (index y (shape a).1.1) ;;
  store_pixels (fun y' _ => (y' =? r)%nat) v a.

(** [image[y, x] = v] *)
Definition setitem_pixel (a : ndarray) (y x : Z) (v : list Z) : M ndarray :=
  r <- lift (index y (shape a).1.1) ;;
  k <- lift (index x (shape a).1.2) ;;
  store_pixels (fun y' x' => (y' =? r)%nat && (x' =? k)%nat) v a.

(** [image[ys, xs] = v] for two slices. *)
Definition setitem_region (a : ndarray) (ys xs : slice) (v : list Z) : M ndarray :=
  store_pixels (fun y x => in_slice ys (shape a).1.1 y && in_slice xs (shape a).1.2 x) v a.

(** [image[mask] = v] for a boolean mask over the pixel grid. *)
Definition setitem_mask (a : ndarray) (mask : nat -> nat -> bool) (v : list Z) : M ndarray :=
  store_pixels mask v a.

(** [image[y, :] = v] for a 2-D [v], a list of per-channel rows: its shape
    [(m, n)] must broadcast to the row's [(width, channels)]. *)
Definition setitem_row_2d (a : ndarray) (y : Z) (v : list (list Z)) : M ndarray :=
  r <- lift (index y (shape a).1.1) ;;
  let m := length v in
  let n := length (hd [] v) in
  let w := (shape a).1.2 in
  let c := (shape a).2 in
  if ((n =? c)%nat || (n =? 1)%nat) && ((m =? w)%nat || (m =? 1)%nat) then
    note_cast (concat v) ;;
    ret (paint (fun y' _ => (y' =? r)%nat)
               (fun _ x => map (fun ch =>
                  to_uint8 (nth (if (n =? 1)%nat then 0%nat else ch)
                                (nth (if (m =? 1)%nat then 0%nat else x) v []) 0))
                  (seq 0 c))
               a)
  else raise (ValueError CouldNotBroadcast).

(** [image[:, :, c] = v] for a 2-D [v] given by position. *)
Definition setitem_channel (a : ndarray) (c : nat) (v : nat -> nat -> Z) : M ndarray :=
  if (c <? (shape a).2)%nat then
    note_cast (concat (imap (fun y row => imap (fun x _ => v y x) row) (data a))) ;;
    ret (map_items (fun y x c' old => if (c' =? c)%nat then to_uint8 (v y x) else old) a)
  else raise IndexError.

(** [np.clip(image.astype(np.int16) + noise, 0, 255).astype(np.uint8)],
    for two arrays of one shape, as the script has them. *)
Definition add_clip_uint8 (a noise : ndarray) : M ndarray :=
  if decide (shape a = shape noise) then
    let clipped := map_items (fun y x c v => np_clip 0 255 (v + item noise y x c)) a in
    note_cast (concat (concat (data clipped))) ;;
    ret (map_items (fun _ _ _ v => to_uint8 v) clipped)
  else raise (ValueError CouldNotBroadcast).

(** The noise pass that ends three of the generators:
    [noise = np.random.randint(low, high, (height, width, 3))] followed by
    [image = np.clip(image.astype(np.int16) + noise, 0, 255).astype(np.uint8)].
    The sum is computed in a wider integer type and cannot overflow. *)
Definition add_noise (low high height width : Z) (image : ndarray) : M ndarray :=
  noise <- randint_3d low high height width 3 ;;
  add_clip_uint8 image noise.

(** [image[y, :] = f(image[y, :])], [f] elementwise. *)
Definition update_row (a : ndarray) (y : Z) (f : Z -> Z) : M ndarray :=
  r <- lift (index y (shape a).1.1) ;;
  note_cast (map f (concat (nth r (data a) []))) ;;
  ret (map_items (fun y' _ _ v => if (y' =? r)%nat then to_uint8 (f v) else v) a).

(** The mask [(x_coords - cx) ** 2 + (y_coords - cy) ** 2 <= radius ** 2]
    over [np.ogrid[:height, :width]]. *)
Definition circle_mask (cx cy radius : Z) : nat -> nat -> bool :=
  fun y x => (Z.of_nat x - cx) ^ 2 + (Z.of_nat y - cy) ^ 2 <=? radius ^ 2.

(** ** Float expressions

    Each field is the integer a float expression of the script is
    truncated to. *)
Record FloatOracle := {
  (* int(120 + (180 - 120) * (1 - y / sky_height)) *)
  sky_level : Z -> Z -> Z;
  (* int(150 + 50 * np.sin(x / width * np.pi) * np.cos(y / height * np.pi)) *)
  backdrop_level : Z -> Z -> Z -> Z -> Z;
  (* (combined_pattern * k).astype(np.int32)[y, x], for a width x height grid *)
  pattern_scaled : Z -> Z -> Z -> nat -> nat -> Z;
  (* v * (1 - alpha) + 128 * alpha truncated, alpha = 0.3 * np.sin(y / height * np.pi) *)
  blend_level : Z -> Z -> Z -> Z
}.

(** The ranges the float expressions take on the loops' domains. *)
Definition oracle_bounded (fp : FloatOracle) : Prop :=
  (forall y sky_height, 0 <= y < sky_height ->
     120 <= sky_level fp y sky_height <= 180) /\
  (forall x width y height, 0 <= x < width -> 0 <= y < height ->
     100 <= backdrop_level fp x width y height <= 200).

(** ** The generators *)

Section Generators.

Variable fp : FloatOracle.

(** *** create_landscape_image *)

Definition sky_rows (height : Z) : result (list Z) :=
  let sky_height := height / 3 in
  py_range 0 sky_height 1.

Definition mountain_rows (height : Z) : result (list Z) :=
  let sky_height := height / 3 in
  let mountain_start := sky_height in
  let mountain_height := height / 4 in
  py_range mountain_start (mountain_start + mountain_height) 1.

Definition ground_rows (height : Z) : result (list Z) :=
  let sky_height := height / 3 in
  let mountain_start := sky_height in
  let mountain_height := height / 4 in
  let ground_start := mountain_start + mountain_height in
  py_range ground_start height 1.

Definition landscape_sky (height : Z) (image : ndarray) : M ndarray :=
  let sky_height := height / 3 in
  rows <- lift (sky_rows height) ;;
  for_each rows (fun y image =>
    true_div_check sky_height ;;
    let intensity := sky_level fp y sky_height in
    setitem_row image y [intensity; intensity - 30; intensity - 60]) image.

(** [[base_color, base_color - 10, base_color - 20]] for
    [base_color = 80 + noise]: a list of three arrays. *)
Definition mountain_value (noise : list Z) : list (list Z) :=
  let base_color := map (fun n => 80 + n) noise in
  [base_color; map (fun b => b - 10) base_color; map (fun b => b - 20) base_color].

Definition landscape_mountains (height width : Z) (image : ndarray) : M ndarray :=
  rows <- lift (mountain_rows height) ;;
  for_each rows (fun y image =>
    noise <- randint_vec (-20) 20 width ;;
    setitem_row_2d image y (mountain_value noise)) image.

(** [[green_intensity - 40, green_intensity, green_intensity - 60]] for
    [green_intensity = 100 + noise]. *)
Definition ground_value (noise : list Z) : list (list Z) :=
  let green_intensity := map (fun n => 100 + n) noise in
  [map (fun g => g - 40) green_intensity; green_intensity;
   map (fun g => g - 60) green_intensity].

Definition landscape_ground (height width : Z) (image : ndarray) : M ndarray :=
  rows <- lift (ground_rows height) ;;
  for_each rows (fun y image =>
    noise <- randint_vec (-15) 15 width ;;
    setitem_row_2d image y (ground_value noise)) image.

Definition create_landscape_image (size : Z * Z) : M ndarray :=
  let '(height, width) := size in
  image <- np_zeros height width 3 ;;
  image <- landscape_sky height image ;;
  image <- landscape_mountains height width image ;;
  image <- landscape_ground height width image ;;
  add_noise (-10) 10 height width image.

(** *** create_portrait_image *)

Definition portrait_background (height width : Z) (image : ndarray) : M ndarray :=
  ys <- lift (py_range 0 height 1) ;;
  for_each ys (fun y image =>
    xs <- lift (py_range 0 width 1) ;;
    for_each xs (fun x image =>
      true_div_check width ;;
      true_div_check height ;;
      let intensity := backdrop_level fp x width y height in
      setitem_pixel image y x [intensity; intensity - 20; intensity - 40]) image) image.

Definition face_mask (height width : Z) : nat -> nat -> bool :=
  let center_x := width / 2 in
  let center_y := height / 2 in
  let radius := Z.min width height / 4 in
  circle_mask center_x center_y radius.

Definition portrait_face (height width : Z) (image : ndarray) : M ndarray :=
  let mask := face_mask height width in
  face_color <- randint_vec 180 220 3 ;;
  setitem_mask image mask face_color.

(** The image as it stands before the noise is added. *)
Definition portrait_before_noise (size : Z * Z) : M ndarray :=
  let '(height, width) := size in
  image <- np_zeros height width 3 ;;
  image <- portrait_background height width image ;;
  portrait_face height width image.

Definition create_portrait_image (size : Z * Z) : M ndarray :=
  let '(height, width) := size in
  image <- portrait_before_noise size ;;
  add_noise (-15) 15 height width image.

(** *** create_architecture_image *)

Definition architecture_stripes (height width : Z) (image : ndarray) : M ndarray :=
  let stripe_width := width / 8 in
  starts <- lift (py_range 0 width (stripe_width * 2)) ;;
  for_each starts (fun i image =>
    let end_x := Z.min (i + stripe_width) width in
    color_intensity <- randint 80 180 ;;
    setitem_region image All (FromTo i end_x)
      [color_intensity; color_intensity - 20; color_intensity - 30]) image.

Definition architecture_floors (height width : Z) (image : ndarray) : M ndarray :=
  let floor_spacing := height / 12 in
  ys <- lift (py_range floor_spacing height floor_spacing) ;;
  for_each ys (fun y image =>
    if y <? height then setitem_region image (FromTo y (y + 3)) All [60; 60; 60]
    else ret image) image.

(** The rectangle [(window_x, window_y, window_w, window_h)] of the window
    of a building and a floor. *)
Definition window_rect (height width building floor : Z) : Z * Z * Z * Z :=
  let stripe_width := width / 8 in
  let floor_spacing := height / 12 in
  let window_x := building + stripe_width / 4 in
  let window_y := floor + floor_spacing / 4 in
  let window_w := stripe_width / 2 in
  let window_h := floor_spacing / 2 in
  (window_x, window_y, window_w, window_h).

(** The guard under which a window is drawn. *)
Definition window_drawn (height width building floor : Z) : bool :=
  let '(window_x, window_y, window_w, window_h) := window_rect height width building floor in
  (window_x + window_w <? width) && (window_y + window_h <? height).

Definition architecture_window (height width building floor : Z) (image : ndarray)
  : M ndarray :=
  let '(window_x, window_y, window_w, window_h) := window_rect height width building floor in
  if window_drawn height width building floor then
    lit <- random_gt_03 ;;
    let window_color := if lit then [200; 220; 180] else [40; 50; 60] in
    setitem_region image (FromTo window_y (window_y + window_h))
      (FromTo window_x (window_x + window_w)) window_color
  else ret image.

Definition architecture_windows (height width : Z) (image : ndarray) : M ndarray :=
  let stripe_width := width / 8 in
  let floor_spacing := height / 12 in
  buildings <- lift (py_range 0 width (stripe_width * 2)) ;;
  for_each buildings (fun building image =>
    floors <- lift (py_range floor_spacing (height - floor_spacing) floor_spacing) ;;
    for_each floors (fun floor image =>
      architecture_window height width building floor image) image) image.

Definition create_architecture_image (size : Z * Z) : M ndarray :=
  let '(height, width) := size in
  image <- np_full height width 3 120 ;;
  image <- architecture_stripes height width image ;;
  image <- architecture_floors height width image ;;
  image <- architecture_windows height width image ;;
  add_noise (-8) 8 height width image.

(** *** create_nature_image *)

Definition nature_background (height width : Z) (image : ndarray) : M ndarray :=
  let base_green := 120 in
  let green_channel y x := base_green + pattern_scaled fp 50 width height y x in
  let red_channel y x := (base_green - 40) + pattern_scaled fp 30 width height y x in
  let blue_channel y x := (base_green - 60) + pattern_scaled fp 20 width height y x in
  image <- setitem_channel image 0 (fun y x => np_clip 0 255 (blue_channel y x)) ;;
  image <- setitem_channel image 1 (fun y x => np_clip 0 255 (green_channel y x)) ;;
  setitem_channel image 2 (fun y x => np_clip 0 255 (red_channel y x)).

(** A circle drawn through its mask. *)
Definition draw_circle (image : ndarray) (center_x center_y radius : Z) (color : list Z)
  : M ndarray :=
  let mask := circle_mask center_x center_y radius in
  setitem_mask image mask color.

Definition nature_spot (height width : Z) (image : ndarray) : M ndarray :=
  spot_x <- randint 0 (width - 20) ;;
  spot_y <- randint 0 (height - 20) ;;
  spot_size <- randint 5 25 ;;
  spot_color <- choice [[80; 140; 60]; [100; 80; 70]; [60; 100; 80]] ;;
  draw_circle image spot_x spot_y spot_size spot_color.

Definition create_nature_image (size : Z * Z) : M ndarray :=
  let '(height, width) := size in
  image <- np_zeros height width 3 ;;
  image <- nature_background height width image ;;
  let num_spots := 50 in
  spots <- lift (py_range 0 num_spots 1) ;;
  for_each spots (fun _ image => nature_spot height width image) image.

(** *** create_abstract_image *)

Definition shapes : list string := ["circle"; "rectangle"; "triangle"]%string.

Definition colors : list (list Z) :=
  [[255; 100; 100]; [100; 255; 100]; [100; 100; 255];
   [255; 255; 100]; [255; 100; 255]; [100; 255; 255]].

(** A rectangle [w] by [h] at [(x1, y1)], its far corner cut at the
    canvas. *)
Definition draw_rectangle (height width : Z) (image : ndarray) (x1 y1 w h : Z)
    (color : list Z) : M ndarray :=
  let x2 := Z.min (x1 + w) width in
  let y2 := Z.min (y1 + h) height in
  setitem_region image (FromTo y1 y2) (FromTo x1 x2) color.

(** The [if shape == 'circle' ... elif shape == 'rectangle' ...] of one
    iteration. *)
Definition abstract_draw (height width : Z) (shape : string) (color : list Z)
    (image : ndarray) : M ndarray :=
  if String.eqb shape "circle" then
    center_x <- randint 0 width ;;
    center_y <- randint 0 height ;;
    radius <- randint 20 80 ;;
    draw_circle image center_x center_y radius color
  else if String.eqb shape "rectangle" then
    x1 <- randint 0 (width - 50) ;;
    y1 <- randint 0 (height - 50) ;;
    w <- randint 30 100 ;;
    h <- randint 30 100 ;;
    draw_rectangle height width image x1 y1 w h color
  else ret image.

Definition abstract_shape (height width : Z) (image : ndarray) : M ndarray :=
  shape <- choice shapes ;;
  color <- choice colors ;;
  abstract_draw height width shape color image.

Definition abstract_blend (height : Z) (image : ndarray) : M ndarray :=
  ys <- lift (py_range 0 height 1) ;;
  for_each ys (fun y image =>
    true_div_check height ;;
    update_row image y (fun v => blend_level fp v y height)) image.

(** The base is drawn with [dtype=np.uint8], one byte an element, so the
    closing [image.astype(np.uint8)] changes nothing. *)
Definition create_abstract_image (size : Z * Z) : M ndarray :=
  let '(height, width) := size in
  image <- randint_3d_dtype 1 50 200 height width 3 ;;
  let num_shapes := 15 in
  iterations <- lift (py_range 0 num_shapes 1) ;;
  image <- for_each iterations (fun _ image => abstract_shape height width image) image ;;
  abstract_blend height image.

End Generators.

(** A concrete oracle and generator state, for evaluation. *)
Definition flat_oracle : FloatOracle :=
  {| sky_level := fun _ _ => 150;
     backdrop_level := fun _ _ _ _ => 150;
     pattern_scaled := fun _ _ _ _ _ => 0;
     blend_level := fun v _ _ => v |}.

Definition seeded (k : Z) : State :=
  {| raw := fun n => k + 7919 * Z.of_nat n; pos := 0; wrapped := false |}.

(** * Vocabulary of the proofs *)

(** [wp m s Q]: running [m] from [s] ends in a result and a state that
    satisfy [Q]. *)
Definition wp {A} (m : M A) (s : State) (Q : result A -> State -> Prop) : Prop :=
  Q (m s).1 (m s).2.

(** The ghost flag is tracked under a side condition [G] (the ranges of the
    float expressions, where a store depends on them). *)
Definition clean (G : Prop) (s : State) : Prop := G -> wrapped s = false.

(** The computation returns a value satisfying [P]. *)
Definition returns {A} (G : Prop) (P : A -> Prop) : result A -> State -> Prop :=
  fun r s => clean G s /\ exists a, r = Ok a /\ P a.

(** The computation raises [e]. *)
Definition raises {A} (G : Prop) (e : exn) : result A -> State -> Prop :=
  fun r s => clean G s /\ r = Raise e.


(** The computation returns a value satisfying [P] or raises a
    [ValueError]. *)
Definition returns_or_value_error {A} (G : Prop) (P : A -> Prop)
  : result A -> State -> Prop :=
  fun r s => clean G s /\ ((exists a, r = Ok a /\ P a) \/ exists why, r = Raise (ValueError why)).

(** [s'] has the stream and the cursor of [s]: nothing was drawn in
    between. *)
Definition same_draws (s s' : State) : Prop := raw s' = raw s /\ pos s' = pos s.

(** A computation that draws no random number. *)
Definition draws_nothing {A} (m : M A) : Prop := forall s, same_draws s (m s).2.

(** ** Canvas sizes

    A canvas with both sides under 2^29: every array a generator creates
    for it, up to three 64-bit integers a pixel, is within NumPy's limits,
    and the squared distances of the masks are exact in 64 bits. *)
Definition fits (height width : Z) : Prop :=
  0 <= height < 2 ^ 29 /\ 0 <= width < 2 ^ 29.

(** ** Well-formed images *)

Definition in_uint8 (v : Z) : Prop := 0 <= v <= 255.

Definition pixel_ok (px : list Z) : Prop := length px = 3%nat /\ Forall in_uint8 px.

(** [good h w a]: [a] has shape [(h, w, 3)], its data has that shape and
    every channel is in [0, 255]. *)
Definition good (h w : nat) (a : ndarray) : Prop :=
  shape a = (h, w, 3%nat) /\
  length (data a) = h /\
  Forall (fun row => length row = w /\ Forall pixel_ok row) (data a).

(** The pixel at row [y], column [x], if there is one. *)
Definition pixel (a : ndarray) (y x : nat) : option (list Z) :=
  row ← data a !! y; row !! x.

(** [a] is [a0] with the pixels selected by [P] set to [f]: same pixels
    otherwise, same extent. *)
Definition rewritten (P : nat -> nat -> bool) (f : nat -> nat -> list Z)
    (a0 a : ndarray) : Prop :=
  forall y x, pixel a y x = (fun old => if P y x then f y x else old) <$> pixel a0 y x.

(** Every channel of [a] lies in [lo, hi]. *)
Definition within (lo hi : Z) (a : ndarray) : Prop :=
  forall y x px, pixel a y x = Some px -> Forall (fun v => lo <= v <= hi) px.

(** The colour of the sky on row [y]: [[intensity, intensity - 30,
    intensity - 60]]. *)
Definition sky_pixel (fp : FloatOracle) (height : Z) (y : nat) : list Z :=
  let intensity := sky_level fp (Z.of_nat y) (height / 3) in
  [intensity; intensity - 30; intensity - 60].

(** The colour of the portrait's backdrop at [(y, x)]:
    [[intensity, intensity - 20, intensity - 40]]. *)
Definition backdrop_pixel (fp : FloatOracle) (height width : Z) (y x : nat) : list Z :=
  let intensity := backdrop_level fp (Z.of_nat x) width (Z.of_nat y) height in
  [intensity; intensity - 20; intensity - 40].

(** What [portrait_before_noise] hands to the noise pass. *)
Definition face_painted (height width : Z) (a : ndarray) : Prop :=
  good (Z.to_nat height) (Z.to_nat width) a /\
  exists face_color,
    length face_color = 3%nat /\
    Forall (fun v => 180 <= v < 220) face_color /\
    forall y x, (y < Z.to_nat height)%nat -> (x < Z.to_nat width)%nat ->
      face_mask height width y x = true -> pixel a y x = Some face_color.

(** The [ValueError] the first spot ends in. *)
Definition spot_failure (height width : Z) : value_error :=
  if (width <=? 20) || (height <=? 20) then LowGeHigh else NotOneDimensional.

(** ** Results of a run *)

Definition outcome {A} (m : M A) (s : State) : result A := (m s).1.

Definition final_state {A} (m : M A) (s : State) : State := (m s).2.

(** Whether a run returned, and what it raised if not. *)
Inductive verdict :=
| Returns
| Fails (e : exn).

Definition verdict_of {A} (r : result A) : verdict :=
  match r with
  | Ok _ => Returns
  | Raise e => Fails e
  end.

(** ** What every call ends in *)


Definition architecture_verdict (height width : Z) : verdict :=
  if (width <? 8) || (height <? 12) then Fails (ValueError ZeroStep)
  else Returns.

(** The flag is still clear and a returned image is well formed. *)
Definition settled (G : Prop) : result ndarray -> State -> Prop :=
  fun r s => clean G s /\ forall a, r = Ok a -> exists h w, good h w a.

(** ** The driver's table of generators *)

(** [generators] of [main]: file name and generator, each called with its
    default size. *)
Definition generators (fp : FloatOracle) : list (string * (Z * Z -> M ndarray)) :=
  [("landscape.jpg"%string, create_landscape_image fp);
   ("portrait.jpg"%string, create_portrait_image fp);
   ("architecture.jpg"%string, create_architecture_image);
   ("nature.jpg"%string, create_nature_image fp);
   ("abstract.jpg"%string, create_abstract_image fp)].

(** ** The driver, [main]

    The world [main] acts on: the directories and the files that exist and
    the lines printed.  A file stands for the image handed to the encoder;
    [cv2.GaussianBlur] and the encoder of [cv2.imwrite] are outside the
    script, the blur is a parameter.  Paths are joined the POSIX way. *)
Record World := mkWorld {
  dirs : gset string;
  files : gmap string ndarray;
  stdout : list string
}.

(** What ends a run of [main] early. *)
Inductive main_exn :=
| GeneratorError (e : exn)   (* an exception of a generator, not caught *)
| FileExistsError.           (* os.makedirs on a path that is a regular file *)

(** A run of [main]: the uncaught exception if there is one, the world and
    the state of [np.random] it leaves. *)
Record Run := mkRun {
  raised : option main_exn;
  world : World;
  rng : State
}.

(** [os.path.exists(path)] *)
Definition path_exists (w : World) (path : string) : bool :=
  bool_decide (path ∈ dirs w) || bool_decide (is_Some (files w !! path)).

(** [print(line)] *)
Definition print (line : string) (w : World) : World :=
  {| dirs := dirs w; files := files w; stdout := stdout w ++ [line] |}.

(** [os.makedirs(path, exist_ok=True)] for a path of one component. *)
Definition makedirs_exist_ok (path : string) (w : World) : option main_exn * World :=
  if bool_decide (is_Some (files w !! path)) then (Some FileExistsError, w)
  else (None, {| dirs := {[path]} ∪ dirs w; files := files w; stdout := stdout w |}).

(** [os.path.join(a, b)] *)
Definition path_join (a b : string) : string := a +:+ "/" +:+ b.

(** [cv2.imwrite(path, image)] *)
Definition imwrite (path : string) (image : ndarray) (w : World) : World :=
  {| dirs := dirs w; files := <[path := image]> (files w); stdout := stdout w |}.

(** The calls [generator()] of the table: each generator at the default of
    its [size] parameter. *)
Definition default_calls (fp : FloatOracle) : list (string * M ndarray) :=
  [("landscape.jpg"%string, create_landscape_image fp (720, 1280));
   ("portrait.jpg"%string, create_portrait_image fp (960, 720));
   ("architecture.jpg"%string, create_architecture_image (800, 1200));
   ("nature.jpg"%string, create_nature_image fp (1080, 1920));
   ("abstract.jpg"%string, create_abstract_image fp (600, 800))].

Definition newline : string := String "010"%char EmptyString.

(** [f"  âœ“ Saved {filepath} ({image.shape[1]}x{image.shape[0]})"]: the
    three characters before [Saved] are those of the script, U+00E2, U+0153
    and U+201C. *)
Definition saved_line (filepath : string) (image : ndarray) : string :=
  "  âœ“ Saved " +:+ filepath +:+ " (" +:+ pretty (shape image).1.2 +:+ "x"
  +:+ pretty (shape image).1.1 +:+ ")".

Section Driver.

Variable blur : ndarray -> ndarray.

(** The loop over [generators.items()]. *)
Fixpoint main_loop (samples_dir : string) (entries : list (string * M ndarray))
    (w : World) (s : State) : Run :=
  match entries with
  | [] => {| raised := None; world := w; rng := s |}
  | (filename, generator) :: entries' =>
      let filepath := path_join samples_dir filename in
      if path_exists w filepath then
        let w := print ("  " +:+ filename +:+ " already exists, skipping...") w in
        main_loop samples_dir entries' w s
      else
        let w := print ("  Creating " +:+ filename +:+ "...") w in
        match generator s with
        | (Raise e, s) => {| raised := Some (GeneratorError e); world := w; rng := s |}
        | (Ok image, s) =>
            let image := blur image in
            let w := imwrite filepath image w in
            let w := print (saved_line filepath image) w in
            main_loop samples_dir entries' w s
        end
  end.

Definition main (fp : FloatOracle) (w : World) (s : State) : Run :=
  let samples_dir := "samples"%string in
  match makedirs_exist_ok samples_dir w with
  | (Some e, w) => {| raised := Some e; world := w; rng := s |}
  | (None, w) =>
      let w := print "Generating sample images..." w in
      let r := main_loop samples_dir (default_calls fp) w s in
      match raised r with
      | Some e => r
      | None =>
          let w := print (newline +:+ "Sample generation complete!") (world r) in
          let w := print ("Generated images are available in the '" +:+ samples_dir
                          +:+ "' directory.") w in
          {| raised := None; world := w; rng := rng r |}
      end
  end.

End Driver.

(** The five files [main] is after. *)
Definition targets : list string :=
  ["samples/landscape.jpg"; "samples/portrait.jpg"; "samples/architecture.jpg";
   "samples/nature.jpg"; "samples/abstract.jpg"]%string.

(** The exception a table of calls ends in, read off what exists at the
    start and what each call does: the first call whose file is missing and
    which raises. *)
Fixpoint first_failure (samples_dir : string) (w : World) (calls : list (string * verdict))
  : option main_exn :=
  match calls with
  | [] => None
  | (filename, v) :: calls' =>
      if path_exists w (path_join samples_dir filename) then first_failure samples_dir w calls'
      else match v with
           | Fails e => Some (GeneratorError e)
           | Returns => first_failure samples_dir w calls'
           end
  end.

(** The world once [main] has made the directory and printed its first
    line. *)
Definition started (w : World) : World :=
  print "Generating sample images..."
    {| dirs := {["samples"%string]} ∪ dirs w; files := files w; stdout := stdout w |}.

(** What the calls of [default_calls] do, whatever the state of
    [np.random]. *)
Definition default_verdicts : list (string * verdict) :=
  [("landscape.jpg"%string, Fails (ValueError CouldNotBroadcast));
   ("portrait.jpg"%string, Returns);
   ("architecture.jpg"%string, Returns);
   ("nature.jpg"%string, Fails (ValueError NotOneDimensional));
   ("abstract.jpg"%string, Fails (ValueError NotOneDimensional))].

(** Worlds to run [main] in: nothing there yet, every sample there, and
    only the three samples there whose generators raise. *)
Definition fresh_world : World := {| dirs := ∅; files := ∅; stdout := [] |}.

Definition complete_world : World :=
  {| dirs := {["samples"%string]};
     files := list_to_map (map (fun path => (path, filled 1 1 3 0)) targets);
     stdout := [] |}.

Definition patched_world : World :=
  {| dirs := {["samples"%string]};
     files := list_to_map (map (fun path => (path, filled 1 1 3 0))
                ["samples/landscape.jpg"; "samples/nature.jpg";
                 "samples/abstract.jpg"]%string);
     stdout := [] |}.

(** * Reasoning about computations *)

Lemma wp_ret {A} (a : A) s Q : Q (Ok a) s -> wp (ret a) s Q.
Proof. done. Qed.

Lemma wp_raise {A} e s (Q : result A -> State -> Prop) : Q (Raise e) s -> wp (raise e) s Q.
Proof. done. Qed.

Lemma wp_lift {A} (r : result A) s Q : Q r s -> wp (lift r) s Q.
Proof. done. Qed.

Lemma wp_bind {A B} (m : M A) (k : A -> M B) s Q :
  wp m s (fun r s' => match r with Ok a => wp (k a) s' Q | Raise e => Q (Raise e) s' end) ->
  wp (bind m k) s Q.
Proof. unfold wp, bind. destruct (m s) as [[a|e] s']; simpl; auto. Qed.

Lemma wp_mono {A} (m : M A) s (Q Q' : result A -> State -> Prop) :
  wp m s Q -> (forall r s', Q r s' -> Q' r s') -> wp m s Q'.
Proof. unfold wp. auto. Qed.

Section Outcomes.

Variable G : Prop.

Lemma wp_bind_returns {A B} (P : A -> Prop) (m : M A) (k : A -> M B) s Q :
  wp m s (returns G P) ->
  (forall a s', P a -> clean G s' -> wp (k a) s' Q) ->
  wp (bind m k) s Q.
Proof.
  intros Hm Hk. apply wp_bind. eapply wp_mono; [exact Hm|].
  intros r s' [Hc (a & -> & Ha)]. auto.
Qed.

Lemma wp_bind_raises {A B} e (m : M A) (k : A -> M B) s :
  wp m s (raises G e) -> wp (bind m k) s (raises G e).
Proof.
  intros Hm. apply wp_bind. eapply wp_mono; [exact Hm|].
  intros r s' [Hc ->]. by split.
Qed.

Lemma wp_returns_mono {A} (P P' : A -> Prop) (m : M A) s :
  wp m s (returns G P) -> (forall a, P a -> P' a) -> wp m s (returns G P').
Proof.
  intros Hm HP. eapply wp_mono; [exact Hm|].
  intros r s' [Hc (a & -> & Ha)]. split; eauto.
Qed.

Lemma wp_ret_returns {A} (P : A -> Prop) a s : clean G s -> P a -> wp (ret a) s (returns G P).
Proof. intros. apply wp_ret. split; eauto. Qed.



Lemma wp_returns_value_error {A} (P : A -> Prop) (m : M A) s :
  wp m s (returns G P) -> wp m s (returns_or_value_error G P).
Proof.
  intros Hm. eapply wp_mono; [exact Hm|]. intros r s' [Hc Hr]. split; auto.
Qed.

Lemma wp_raises_value_error {A} (P : A -> Prop) why (m : M A) s :
  wp m s (raises G (ValueError why)) -> wp m s (returns_or_value_error G P).
Proof.
  intros Hm. eapply wp_mono; [exact Hm|]. intros r s' [Hc ->]. split; eauto.
Qed.

Lemma wp_bind_value_error {A B} (P : A -> Prop) (Q : B -> Prop) (m : M A) (k : A -> M B) s :
  wp m s (returns_or_value_error G P) ->
  (forall a s', P a -> clean G s' -> wp (k a) s' (returns_or_value_error G Q)) ->
  wp (bind m k) s (returns_or_value_error G Q).
Proof.
  intros Hm Hk. apply wp_bind. eapply wp_mono; [exact Hm|].
  intros r s' [Hc [(a & -> & Ha)|(why & ->)]]; [auto|]. split; eauto.
Qed.

(** A loop whose iterations return or raise a [ValueError]. *)
Lemma wp_for_value_error {A B} (I : A -> Prop) (xs : list B) body :
  (forall x a s, x ∈ xs -> I a -> clean G s ->
     wp (body x a) s (returns_or_value_error G I)) ->
  forall a s, I a -> clean G s ->
    wp (for_each xs body a) s (returns_or_value_error G I).
Proof.
  induction xs as [|x xs IH]; intros Hbody a s Ha Hs; simpl.
  - apply wp_ret. split; eauto.
  - eapply wp_bind_value_error.
    + apply Hbody; [left | done | done].
    + intros a' s' Ha' Hs'. apply IH; [|done|done].
      intros y b t Hy. apply Hbody. by right.
Qed.

(** A loop whose iterations all return keeps its invariant. *)
Lemma wp_for_returns {A B} (I : A -> Prop) (xs : list B) body :
  (forall x a s, x ∈ xs -> I a -> clean G s -> wp (body x a) s (returns G I)) ->
  forall a s, I a -> clean G s -> wp (for_each xs body a) s (returns G I).
Proof.
  induction xs as [|x xs IH]; intros Hbody a s Ha Hs; simpl.
  - by apply wp_ret_returns.
  - eapply wp_bind_returns.
    + apply Hbody; [left | done | done].
    + intros a' s' Ha' Hs'. apply IH; [|done|done].
      intros y b t Hy. apply Hbody. by right.
Qed.

(** A loop whose first iteration raises, raises. *)
Lemma wp_for_head_raises {A B} e (x : B) xs body (a : A) s :
  wp (body x a) s (raises G e) -> wp (for_each (x :: xs) body a) s (raises G e).
Proof. intros H. simpl. by apply wp_bind_raises. Qed.

(** Casting values that fit leaves the flag alone. *)
Lemma wp_note_cast vs s Q :
  (G -> Forall (fun v => 0 <= v <= 255) vs) ->
  (forall s', clean G s' -> Q (Ok tt) s') ->
  clean G s -> wp (note_cast vs) s Q.
Proof.
  intros Hvs HQ Hs. unfold wp, note_cast. simpl. apply HQ.
  intros HG. simpl. rewrite (Hs HG). simpl.
  apply not_true_is_false. intros Hex. apply existsb_exists in Hex as (v & Hin & Hv).
  specialize (Hvs HG). rewrite Forall_forall in Hvs.
  apply list_elem_of_In, Hvs in Hin. unfold out_of_uint8 in Hv. lia.
Qed.

End Outcomes.

(** ** Computations that draw nothing *)

Lemma same_draws_refl s : same_draws s s.
Proof. by split. Qed.

Lemma same_draws_trans s1 s2 s3 : same_draws s1 s2 -> same_draws s2 s3 -> same_draws s1 s3.
Proof. intros [H1 H2] [H3 H4]. split; congruence. Qed.

Lemma randint_at_same_draws low high s s' k :
  same_draws s s' -> randint_at low high s' k = randint_at low high s k.
Proof. intros [Hr Hp]. unfold randint_at. by rewrite Hr, Hp. Qed.

Lemma draws_nothing_ret {A} (a : A) : draws_nothing (ret a).
Proof. intros s. apply same_draws_refl. Qed.

Lemma draws_nothing_lift {A} (r : result A) : draws_nothing (lift r).
Proof. intros s. apply same_draws_refl. Qed.

Lemma draws_nothing_note_cast vs : draws_nothing (note_cast vs).
Proof. by intros s. Qed.

Lemma draws_nothing_true_div_check b : draws_nothing (true_div_check b).
Proof. intros s. unfold true_div_check. destruct (b =? 0); apply same_draws_refl. Qed.

Lemma draws_nothing_bind {A B} (m : M A) (k : A -> M B) :
  draws_nothing m -> (forall a, draws_nothing (k a)) -> draws_nothing (bind m k).
Proof.
  intros Hm Hk s. unfold bind. specialize (Hm s).
  destruct (m s) as [[a|e] s']; simpl in *; [|done].
  eapply same_draws_trans; [exact Hm|apply Hk].
Qed.

Lemma draws_nothing_for_each {A B} (xs : list B) (body : B -> A -> M A) a :
  (forall x b, draws_nothing (body x b)) -> draws_nothing (for_each xs body a).
Proof.
  intros Hbody. revert a. induction xs as [|x xs IH]; intros a; simpl.
  - apply draws_nothing_ret.
  - apply draws_nothing_bind; [apply Hbody|apply IH].
Qed.

Lemma draws_nothing_store_pixels sel v a : draws_nothing (store_pixels sel v a).
Proof.
  unfold store_pixels. apply draws_nothing_bind; [apply draws_nothing_lift|]. intros px.
  apply draws_nothing_bind; [apply draws_nothing_note_cast|]. intros _.
  apply draws_nothing_ret.
Qed.

Lemma draws_nothing_setitem_pixel a y x v : draws_nothing (setitem_pixel a y x v).
Proof.
  unfold setitem_pixel. apply draws_nothing_bind; [apply draws_nothing_lift|]. intros r.
  apply draws_nothing_bind; [apply draws_nothing_lift|]. intros k.
  apply draws_nothing_store_pixels.
Qed.

Lemma draws_nothing_np_full height width v : draws_nothing (np_full height width 3 v).
Proof.
  unfold np_full. apply draws_nothing_bind; [apply draws_nothing_lift|]. intros _.
  apply draws_nothing_bind; [apply draws_nothing_note_cast|]. intros _.
  apply draws_nothing_ret.
Qed.

Lemma draws_nothing_portrait_background fp height width image :
  draws_nothing (portrait_background fp height width image).
Proof.
  unfold portrait_background. apply draws_nothing_bind; [apply draws_nothing_lift|].
  intros ys. apply draws_nothing_for_each. intros y b.
  apply draws_nothing_bind; [apply draws_nothing_lift|]. intros xs.
  apply draws_nothing_for_each. intros x c.
  apply draws_nothing_bind; [apply draws_nothing_true_div_check|]. intros _.
  apply draws_nothing_bind; [apply draws_nothing_true_div_check|]. intros _.
  apply draws_nothing_setitem_pixel.
Qed.

(** * The shapes NumPy accepts, lemmas *)

Lemma check_nbytes_cases nbytes dims :
  (check_nbytes nbytes dims = Ok tt /\ Forall (fun d => 0 <= d) dims) \/
  exists why, check_nbytes nbytes dims = Raise (ValueError why).
Proof.
  revert nbytes. induction dims as [|d dims IH]; intros nbytes; simpl.
  - left. by split.
  - destruct (Z.eqb_spec d 0) as [->|Hd].
    { destruct (IH nbytes) as [[-> Hall]|Hr]; [left|by right]. split; [done|].
      by constructor. }
    destruct (Z.ltb_spec d 0); [right; eauto|].
    destruct (intp_max <? nbytes * d); [right; eauto|].
    destruct (IH (nbytes * d)) as [[-> Hall]|Hr]; [left|by right]. split; [done|].
    by constructor.
Qed.

Lemma check_shape_cases itemsize dims :
  (check_shape itemsize dims = Ok tt /\ Forall (fun d => 0 <= d) dims) \/
  exists why, check_shape itemsize dims = Raise (ValueError why).
Proof.
  unfold check_shape. destruct (forallb is_intp dims); [|right; eauto].
  apply check_nbytes_cases.
Qed.

Lemma is_intp_nonneg d : 0 <= d <= intp_max -> is_intp d = true.
Proof.
  unfold is_intp, intp_min, intp_max. intros H. apply andb_true_iff.
  rewrite !Z.leb_le. lia.
Qed.

(** One step of the loop, an empty side counting as 1. *)
Lemma check_nbytes_cons nbytes d dims :
  0 <= d -> nbytes * Z.max 1 d <= intp_max ->
  check_nbytes nbytes (d :: dims) = check_nbytes (nbytes * Z.max 1 d) dims.
Proof.
  intros Hd Hsize. simpl. destruct (Z.eqb_spec d 0) as [->|Hne].
  - by rewrite Z.max_l, Z.mul_1_r by lia.
  - rewrite Z.max_r in * by lia. rewrite (proj2 (Z.ltb_ge d 0)) by lia.
    by rewrite (proj2 (Z.ltb_ge intp_max (nbytes * d))) by lia.
Qed.

(** A canvas of [itemsize] bytes a channel whose size in bytes is an
    [npy_intp], an empty side counting as 1. *)
Lemma check_shape_canvas itemsize height width :
  0 < itemsize -> 0 <= height -> 0 <= width ->
  itemsize * (Z.max 1 height * Z.max 1 width * 3) <= intp_max ->
  check_shape itemsize [height; width; Z.of_nat 3] = Ok tt.
Proof.
  intros Hi Hh Hw Hsize.
  assert (HH : 1 <= Z.max 1 height /\ height <= Z.max 1 height) by lia.
  assert (HW : 1 <= Z.max 1 width /\ width <= Z.max 1 width) by lia.
  revert Hsize HH HW. generalize (Z.max 1 height) as H, (Z.max 1 width) as W.
  intros H W Hsize [H1 Hle] [W1 Wle].
  assert (HP : H <= H * W /\ W <= H * W) by nia.
  assert (Hbound : itemsize * H <= itemsize * (H * W)).
  { apply Z.mul_le_mono_nonneg_l; lia. }
  assert (H * W <= itemsize * (H * W)) by nia.
  unfold check_shape. cbn [forallb].
  rewrite !is_intp_nonneg by (unfold intp_max in *; lia). cbn [andb].
  change (Z.of_nat 3) with 3.
  assert (Hh' : Z.max 1 height <= H) by lia.
  assert (Hw' : Z.max 1 width <= W) by lia.
  assert (itemsize * Z.max 1 height <= itemsize * H).
  { apply Z.mul_le_mono_nonneg_l; lia. }
  rewrite check_nbytes_cons by lia.
  assert (itemsize * Z.max 1 height * Z.max 1 width <= itemsize * H * W).
  { apply Z.mul_le_mono_nonneg; nia. }
  rewrite check_nbytes_cons by lia.
  assert (itemsize * Z.max 1 height * Z.max 1 width * 3 <= itemsize * H * W * 3) by lia.
  rewrite check_nbytes_cons by lia. done.
Qed.

Lemma check_shape_fits itemsize height width :
  0 < itemsize <= 8 -> fits height width ->
  check_shape itemsize [height; width; Z.of_nat 3] = Ok tt.
Proof.
  intros Hi [Hh Hw]. apply check_shape_canvas; [lia..|]. unfold intp_max.
  assert (Z.max 1 height * Z.max 1 width <= 2 ^ 29 * 2 ^ 29).
  { apply Z.mul_le_mono_nonneg; lia. }
  assert (itemsize * (Z.max 1 height * Z.max 1 width * 3)
          <= 8 * (Z.max 1 height * Z.max 1 width * 3)).
  { apply Z.mul_le_mono_nonneg_r; lia. }
  lia.
Qed.

Lemma check_shape_vec n : 0 <= n -> 8 * n <= intp_max -> check_shape 8 [n] = Ok tt.
Proof.
  intros Hn Hsize. unfold check_shape. cbn [forallb].
  rewrite is_intp_nonneg by lia. cbn [andb].
  rewrite check_nbytes_cons; [done|done|]. unfold intp_max in *. lia.
Qed.

Lemma np_prod_vec n : 0 < n -> 8 * n <= intp_max -> np_prod_is_zero [n] = false.
Proof.
  intros Hn Hsize. unfold np_prod_is_zero. cbn [forallb fold_right].
  rewrite is_intp_nonneg by lia. cbn [andb]. rewrite Z.mul_1_r.
  apply Z.eqb_neq. unfold intp_max in Hsize. rewrite Z.mod_small by lia. lia.
Qed.

Lemma np_prod_canvas itemsize height width :
  0 < itemsize -> 0 < height -> 0 < width ->
  itemsize * (height * width * 3) <= intp_max ->
  np_prod_is_zero [height; width; Z.of_nat 3] = false.
Proof.
  intros Hi Hh Hw Hsize.
  assert (HP : 0 < height * width /\ height <= height * width /\ width <= height * width)
    by nia.
  assert (height * width * 3 <= itemsize * (height * width * 3)).
  { rewrite <- (Z.mul_1_l (height * width * 3)) at 1.
    apply Z.mul_le_mono_nonneg_r; lia. }
  unfold np_prod_is_zero. cbn [forallb fold_right]. change (Z.of_nat 3) with 3.
  rewrite !is_intp_nonneg by (unfold intp_max in *; lia). cbn [andb].
  replace (height * (width * (3 * 1))) with (height * width * 3) by lia.
  apply Z.eqb_neq. unfold intp_max in Hsize. rewrite Z.mod_small by lia. lia.
Qed.

(** * Well-formed images, lemmas *)

Lemma to_uint8_range v : in_uint8 (to_uint8 v).
Proof. unfold in_uint8, to_uint8. pose proof (Z.mod_pos_bound v 256). lia. Qed.

Lemma to_uint8_id v : in_uint8 v -> to_uint8 v = v.
Proof. unfold in_uint8, to_uint8. intros. apply Z.mod_small. lia. Qed.

Lemma map_to_uint8_id l : Forall in_uint8 l -> map to_uint8 l = l.
Proof.
  induction 1 as [|v l Hv _ IH]; simpl; [done|]. by rewrite to_uint8_id, IH.
Qed.

Lemma np_clip_range v : in_uint8 (np_clip 0 255 v).
Proof. unfold in_uint8, np_clip. lia. Qed.

Lemma pixel_ok_to_uint8 v : length v = 3%nat -> pixel_ok (map to_uint8 v).
Proof.
  intros Hv. split; [by rewrite length_map|].
  apply Forall_forall. intros x Hx. apply list_elem_of_In, in_map_iff in Hx as (y & <- & _).
  apply to_uint8_range.
Qed.

Lemma Forall_imap_intro {A B} (P : A -> Prop) (Q : B -> Prop) (f : nat -> A -> B) l :
  Forall P l -> (forall i x, P x -> Q (f i x)) -> Forall Q (imap f l).
Proof.
  intros Hl. revert f. induction Hl as [|x l Hx Hl IH]; intros f Hf; simpl.
  - constructor.
  - constructor; [by apply Hf|]. apply IH. intros i y. apply Hf.
Qed.

Lemma good_filled h w v : in_uint8 v -> good h w (filled h w 3 v).
Proof.
  intros Hv. split; [done|]. split; [apply length_replicate|].
  apply Forall_replicate. split; [apply length_replicate|].
  apply Forall_replicate. split; [apply length_replicate|].
  by apply Forall_replicate.
Qed.

Lemma good_paint h w sel px a :
  good h w a -> (forall y x, sel y x = true -> pixel_ok (px y x)) ->
  good h w (paint sel px a).
Proof.
  intros (Hs & Hl & Hd) Hpx. split; [done|]. split; [simpl; by rewrite length_imap|].
  simpl. eapply Forall_imap_intro; [exact Hd|].
  intros y row [Hrow Hpxs]. split; [by rewrite length_imap|].
  eapply Forall_imap_intro; [exact Hpxs|].
  intros x old Hold. simpl. destruct (sel y x) eqn:E; auto.
Qed.

Lemma good_map_items h w f a :
  good h w a -> (forall y x c v, in_uint8 v -> in_uint8 (f y x c v)) ->
  good h w (map_items f a).
Proof.
  intros (Hs & Hl & Hd) Hf. split; [done|]. split; [simpl; by rewrite length_imap|].
  simpl. eapply Forall_imap_intro; [exact Hd|].
  intros y row [Hrow Hpxs]. split; [by rewrite length_imap|].
  eapply Forall_imap_intro; [exact Hpxs|].
  intros x old [Hlen Hold]. split; [by rewrite length_imap|].
  eapply Forall_imap_intro; [exact Hold|]. intros c v. apply Hf.
Qed.

Lemma imap_compose {A B C} (g : nat -> B -> C) (f : nat -> A -> B) l :
  imap g (imap f l) = imap (fun i x => g i (f i x)) l.
Proof.
  revert f g. induction l as [|x l IH]; intros f g; simpl; [done|].
  f_equal. apply IH.
Qed.

Lemma map_items_compose g f a :
  map_items g (map_items f a) = map_items (fun y x c v => g y x c (f y x c v)) a.
Proof.
  unfold map_items. simpl. f_equal. rewrite imap_compose.
  apply imap_ext. intros y row _. simpl. rewrite imap_compose.
  apply imap_ext. intros x px _. simpl. apply imap_compose.
Qed.

Lemma good_shape h w a : good h w a -> shape a = (h, w, 3%nat).
Proof. by intros [? _]. Qed.

(** Reading a painted image. *)
Lemma pixel_paint sel px a y x :
  pixel (paint sel px a) y x =
  (fun old => if sel y x then px y x else old) <$> pixel a y x.
Proof.
  unfold pixel. simpl. rewrite list_lookup_imap.
  destruct (data a !! y) as [row|]; simpl; [|done].
  by rewrite list_lookup_imap.
Qed.

Lemma pixel_good h w a y x :
  good h w a -> (y < h)%nat -> (x < w)%nat -> exists px, pixel a y x = Some px /\ pixel_ok px.
Proof.
  intros (_ & Hl & Hd) Hy Hx. unfold pixel.
  destruct (lookup_lt_is_Some_2 (data a) y) as [row Hrow]; [lia|].
  rewrite Hrow. simpl. rewrite Forall_lookup in Hd. destruct (Hd _ _ Hrow) as [Hw Hpx].
  destruct (lookup_lt_is_Some_2 row x) as [px Hp]; [lia|].
  exists px. split; [done|]. rewrite Forall_lookup in Hpx. eauto.
Qed.

Lemma pixel_inside h w a y x px :
  good h w a -> pixel a y x = Some px -> (y < h)%nat /\ (x < w)%nat.
Proof.
  intros (_ & Hl & Hd) Hp. unfold pixel in Hp.
  destruct (data a !! y) as [row|] eqn:Hrow; simpl in Hp; [|done].
  pose proof (lookup_lt_Some _ _ _ Hrow). pose proof (lookup_lt_Some _ _ _ Hp).
  rewrite Forall_lookup in Hd. destruct (Hd _ _ Hrow) as [Hw _]. lia.
Qed.

(** * What the array operations do *)

Section Operations.

Variable G : Prop.

Lemma index_in_range (i : Z) (n : nat) :
  0 <= i < Z.of_nat n -> index i n = Ok (Z.to_nat i).
Proof. intros H. unfold index. by rewrite (proj2 (andb_true_iff _ _)) by lia. Qed.

Lemma wp_store_pixels h w sel v a s :
  good h w a -> length v = 3%nat -> (G -> Forall in_uint8 v) -> clean G s ->
  wp (store_pixels sel v a) s
     (returns G (fun a' => a' = paint sel (fun _ _ => map to_uint8 v) a /\ good h w a')).
Proof.
  intros Ha Hv Hr Hs. unfold store_pixels.
  rewrite (good_shape _ _ _ Ha). simpl. unfold as_pixel. rewrite Hv. simpl.
  apply wp_bind, wp_lift, wp_bind.
  apply (wp_note_cast G); [done| |done].
  intros s' Hs'. apply wp_ret_returns; [done|]. split; [done|].
  apply good_paint; [done|]. intros; by apply pixel_ok_to_uint8.
Qed.

Lemma wp_setitem_row h w a y v s :
  good h w a -> 0 <= y < Z.of_nat h -> length v = 3%nat ->
  (G -> Forall in_uint8 v) -> clean G s ->
  wp (setitem_row a y v) s (returns G (good h w)).
Proof.
  intros Ha Hy Hv Hr Hs. unfold setitem_row.
  rewrite (good_shape _ _ _ Ha). simpl. rewrite index_in_range by done.
  apply wp_bind, wp_lift.
  eapply wp_returns_mono; [by apply (wp_store_pixels h w)|]. by intros a' [_ ?].
Qed.

Lemma wp_setitem_pixel h w a y x v s :
  good h w a -> 0 <= y < Z.of_nat h -> 0 <= x < Z.of_nat w -> length v = 3%nat ->
  (G -> Forall in_uint8 v) -> clean G s ->
  wp (setitem_pixel a y x v) s (returns G (good h w)).
Proof.
  intros Ha Hy Hx Hv Hr Hs. unfold setitem_pixel.
  rewrite (good_shape _ _ _ Ha). simpl. rewrite !index_in_range by done.
  apply wp_bind, wp_lift, wp_bind, wp_lift.
  eapply wp_returns_mono; [by apply (wp_store_pixels h w)|]. by intros a' [_ ?].
Qed.

Lemma wp_setitem_region h w a ys xs v s :
  good h w a -> length v = 3%nat -> (G -> Forall in_uint8 v) -> clean G s ->
  wp (setitem_region a ys xs v) s
     (returns G (fun a' =>
        a' = paint (fun y x => in_slice ys h y && in_slice xs w x)
                   (fun _ _ => map to_uint8 v) a /\ good h w a')).
Proof.
  intros Ha Hv Hr Hs. unfold setitem_region. rewrite (good_shape _ _ _ Ha). simpl.
  by apply (wp_store_pixels h w).
Qed.

Lemma wp_setitem_mask h w a mask v s :
  good h w a -> length v = 3%nat -> (G -> Forall in_uint8 v) -> clean G s ->
  wp (setitem_mask a mask v) s
     (returns G (fun a' => a' = paint mask (fun _ _ => map to_uint8 v) a /\ good h w a')).
Proof. intros. by apply (wp_store_pixels h w). Qed.

Lemma good_items h w a : good h w a -> Forall in_uint8 (concat (concat (data a))).
Proof.
  intros (_ & _ & Hd). apply Forall_concat, Forall_concat.
  eapply Forall_impl; [exact Hd|]. intros row [_ Hrow]. simpl.
  eapply Forall_impl; [exact Hrow|]. by intros px [_ Hpx].
Qed.

(** Whatever the size, [np.full] returns the canvas or raises a
    [ValueError]; it returns only for sides that are not negative. *)
Lemma wp_np_full_any height width v s :
  in_uint8 v -> clean G s ->
  wp (np_full height width 3 v) s
     (returns_or_value_error G (fun a =>
        good (Z.to_nat height) (Z.to_nat width) a /\ 0 <= height /\ 0 <= width)).
Proof.
  intros Hv Hs. unfold np_full. apply wp_bind, wp_lift.
  destruct (check_shape_cases 1 [height; width; Z.of_nat 3]) as [[-> Hall]|[why ->]];
    [|split; eauto].
  apply Forall_cons in Hall as [Hh Hall]. apply Forall_cons in Hall as [Hw _].
  apply wp_bind. apply (wp_note_cast G); [intros _; by constructor| |done].
  intros s' Hs'. apply wp_ret. split; [done|]. left. eexists. split; [done|].
  split; [|done]. apply good_filled, to_uint8_range.
Qed.

Lemma wp_np_full height width v s :
  fits height width -> in_uint8 v -> clean G s ->
  wp (np_full height width 3 v) s (returns G (good (Z.to_nat height) (Z.to_nat width))).
Proof.
  intros Hfit Hv Hs. unfold np_full. rewrite check_shape_fits by (done || lia).
  apply wp_bind, wp_lift.
  apply wp_bind. apply (wp_note_cast G); [intros _; by constructor| |done].
  intros s' Hs'. apply wp_ret_returns; [done|]. apply good_filled, to_uint8_range.
Qed.

Lemma wp_randint low high s :
  low < high -> clean G s ->
  wp (randint low high) s (returns G (fun v => low <= v < high)).
Proof.
  intros Hlt Hs. unfold wp, randint. rewrite (proj2 (Z.ltb_lt _ _) Hlt). simpl.
  split; [done|]. eexists; split; [done|]. unfold randint_at.
  pose proof (Z.mod_pos_bound (raw s (pos s + 0)%nat) (high - low)). lia.
Qed.

Lemma wp_randint_empty low high s :
  high <= low -> clean G s ->
  wp (randint low high) s (raises G (ValueError LowGeHigh)).
Proof.
  intros Hge Hs. unfold wp, randint. by rewrite (proj2 (Z.ltb_ge _ _) Hge).
Qed.


Lemma randint_at_bounds low high s k : low < high -> low <= randint_at low high s k < high.
Proof.
  intros H. unfold randint_at.
  pose proof (Z.mod_pos_bound (raw s (pos s + k)%nat) (high - low)). lia.
Qed.

(** Whatever the length, a vector of draws is returned or a [ValueError]
    raised. *)
Lemma wp_randint_vec_any low high n s :
  low < high -> clean G s ->
  wp (randint_vec low high n) s
     (returns_or_value_error G (fun l =>
        length l = Z.to_nat n /\ Forall (fun v => low <= v < high) l)).
Proof.
  intros Hlt Hs. unfold wp, randint_vec.
  destruct (check_shape_cases 8 [n]) as [[-> Hall]|[why ->]].
  - apply Forall_cons in Hall as [Hn _].
    destruct (np_prod_is_zero [n]) eqn:Hz; simpl.
    + split; [done|]. left. eexists. split; [done|].
      unfold np_prod_is_zero in Hz. cbn [forallb fold_right] in Hz.
      rewrite Z.mul_1_r in Hz. destruct (is_intp n) eqn:Hin; cbn [andb] in Hz.
      * unfold is_intp, intp_max in Hin. apply andb_true_iff in Hin as [_ Hin].
        apply Z.leb_le in Hin. apply Z.eqb_eq in Hz. rewrite Z.mod_small in Hz by lia.
        by subst n.
      * apply Z.eqb_eq in Hz. by subst n.
    + rewrite (proj2 (Z.ltb_lt _ _) Hlt). simpl. split; [done|]. left.
      eexists; split; [done|]. split; [by rewrite length_map, length_seq|].
      apply Forall_map, Forall_forall. intros k _. by apply randint_at_bounds.
  - destruct (np_prod_is_zero [n]); simpl; [split; eauto|].
    rewrite (proj2 (Z.ltb_lt _ _) Hlt). simpl. split; eauto.
Qed.

(** A vector within NumPy's size limit: the draws, in order. *)
Lemma wp_randint_vec_exact low high n s :
  low < high -> 0 <= n -> 8 * n <= intp_max -> clean G s ->
  wp (randint_vec low high n) s
     (returns G (fun l => l = map (randint_at low high s) (seq 0 (Z.to_nat n)))).
Proof.
  intros Hlt Hn Hsize Hs. unfold wp, randint_vec.
  rewrite check_shape_vec by lia. destruct (Z.eq_dec n 0) as [->|Hne].
  { simpl. split; eauto. }
  rewrite np_prod_vec by lia.
  rewrite (proj2 (Z.ltb_lt _ _) Hlt). simpl. split; eauto.
Qed.

Lemma wp_randint_vec low high n s :
  low < high -> 0 <= n -> 8 * n <= intp_max -> clean G s ->
  wp (randint_vec low high n) s
     (returns G (fun l => length l = Z.to_nat n /\ Forall (fun v => low <= v < high) l)).
Proof.
  intros Hlt Hn Hsize Hs.
  eapply wp_returns_mono; [by apply wp_randint_vec_exact|]. intros l ->.
  split; [by rewrite length_map, length_seq|].
  apply Forall_map, Forall_forall. intros k _. by apply randint_at_bounds.
Qed.

Lemma wp_random_gt_03 s :
  clean G s -> wp random_gt_03 s (returns G (fun _ => True)).
Proof. intros Hs. unfold wp, random_gt_03. simpl. split; eauto. Qed.

Lemma wp_true_div_check b s :
  b <> 0 -> clean G s -> wp (true_div_check b) s (returns G (fun _ => True)).
Proof.
  intros Hb Hs. unfold true_div_check. rewrite (proj2 (Z.eqb_neq _ _) Hb).
  by apply wp_ret_returns.
Qed.

(** Whatever the size, an array of draws of that shape is returned or a
    [ValueError] raised. *)
Lemma wp_randint_3d_any itemsize low high height width s :
  low < high -> clean G s ->
  wp (randint_3d_dtype itemsize low high height width 3) s
     (returns_or_value_error G (fun a =>
        shape a = (Z.to_nat height, Z.to_nat width, 3%nat))).
Proof.
  intros Hlt Hs. unfold wp, randint_3d_dtype. cbv zeta.
  destruct (check_shape_cases itemsize [height; width; Z.of_nat 3]) as [[-> _]|[why ->]].
  - destruct (np_prod_is_zero _); simpl; [split; eauto|].
    rewrite (proj2 (Z.ltb_lt _ _) Hlt). simpl. split; eauto.
  - destruct (np_prod_is_zero _); simpl; [split; eauto|].
    rewrite (proj2 (Z.ltb_lt _ _) Hlt). simpl. split; eauto.
Qed.

Lemma wp_randint_3d_dtype itemsize low high height width s :
  0 < itemsize <= 8 -> low < high -> fits height width -> clean G s ->
  wp (randint_3d_dtype itemsize low high height width 3) s
     (returns G (fun a => shape a = (Z.to_nat height, Z.to_nat width, 3%nat))).
Proof.
  intros Hi Hlt Hfit Hs. unfold wp, randint_3d_dtype. cbv zeta.
  rewrite check_shape_fits by done.
  destruct (np_prod_is_zero _); simpl; [split; eauto|].
  rewrite (proj2 (Z.ltb_lt _ _) Hlt). simpl. split; eauto.
Qed.

Lemma wp_randint_3d low high height width s :
  low < high -> fits height width -> clean G s ->
  wp (randint_3d low high height width 3) s
     (returns G (fun a => shape a = (Z.to_nat height, Z.to_nat width, 3%nat))).
Proof. intros. apply wp_randint_3d_dtype; [lia|done..]. Qed.

Lemma wp_add_clip_uint8 h w a noise s :
  good h w a -> shape noise = (h, w, 3%nat) -> clean G s ->
  wp (add_clip_uint8 a noise) s
     (returns G (fun a' =>
        a' = map_items (fun y x c v => to_uint8 (np_clip 0 255 (v + item noise y x c))) a /\
        good h w a')).
Proof.
  intros Ha Hn Hs. unfold add_clip_uint8.
  rewrite decide_True by (by rewrite Hn, (good_shape _ _ _ Ha)).
  assert (Hc : good h w (map_items (fun y x c v => np_clip 0 255 (v + item noise y x c)) a)).
  { apply good_map_items; [done|]. intros. apply np_clip_range. }
  apply wp_bind. apply (wp_note_cast G); [intros _; by apply (good_items h w)| |done].
  intros s' Hs'. apply wp_ret_returns; [done|]. split.
  - apply map_items_compose.
  - apply good_map_items; [done|]. intros. apply to_uint8_range.
Qed.

Lemma wp_setitem_row_2d_mismatch h w a y (v : list (list Z)) s :
  good h w a -> 0 <= y < Z.of_nat h ->
  length v = 3%nat -> length (hd [] v) = w -> w <> 3%nat -> clean G s ->
  wp (setitem_row_2d a y v) s (raises G (ValueError CouldNotBroadcast)).
Proof.
  intros Ha Hy Hv Hn Hw Hs. unfold setitem_row_2d.
  rewrite (good_shape _ _ _ Ha). simpl. rewrite index_in_range by done.
  apply wp_bind, wp_lift. rewrite Hv, Hn.
  replace (3 =? w)%nat with false by (symmetry; apply Nat.eqb_neq; lia).
  rewrite andb_false_r. by apply wp_raise.
Qed.


(** Whatever the shape of the value, the row is stored or the broadcast
    refused. *)
Lemma wp_setitem_row_2d_any h w a y (v : list (list Z)) s :
  good h w a -> 0 <= y < Z.of_nat h ->
  (G -> Forall in_uint8 (concat v)) -> clean G s ->
  wp (setitem_row_2d a y v) s (returns_or_value_error G (good h w)).
Proof.
  intros Ha Hy Hr Hs. unfold setitem_row_2d.
  rewrite (good_shape _ _ _ Ha). simpl. rewrite index_in_range by done.
  apply wp_bind, wp_lift. case_match; [|apply wp_raise; split; eauto].
  apply wp_bind. apply (wp_note_cast G); [done| |done].
  intros s' Hs'. apply wp_ret. split; [done|]. left. eexists. split; [done|].
  apply good_paint; [done|]. intros _ x _. split; [done|].
  repeat constructor; apply to_uint8_range.
Qed.

Lemma wp_setitem_channel h w a c v s :
  good h w a -> (c < 3)%nat -> (forall y x, in_uint8 (v y x)) -> clean G s ->
  wp (setitem_channel a c v) s (returns G (good h w)).
Proof.
  intros Ha Hc Hv Hs. unfold setitem_channel.
  rewrite (good_shape _ _ _ Ha). simpl.
  rewrite (proj2 (Nat.ltb_lt _ _) Hc).
  apply wp_bind. apply (wp_note_cast G); [intros _| |done].
  - apply Forall_concat.
    apply (Forall_imap_intro (fun _ => True)); [by apply Forall_forall|].
    intros y row _. apply (Forall_imap_intro (fun _ => True)); [by apply Forall_forall|].
    intros x _ _. apply Hv.
  - intros s' Hs'. apply wp_ret_returns; [done|].
    apply good_map_items; [done|]. intros y x c' old Hold.
    destruct (c' =? c)%nat; [apply to_uint8_range | done].
Qed.

(** [np.random.choice] of a list whose elements are themselves lists. *)
Lemma wp_choice_nested {A} `{ArrayLike A} (l : list A) (ls : list (list A)) s :
  clean G s -> wp (choice (l :: ls)) s (raises G (ValueError NotOneDimensional)).
Proof. intros Hs. unfold wp, choice. simpl. by split. Qed.

Lemma wp_choice_shapes s :
  clean G s -> wp (choice shapes) s (returns G (fun _ => True)).
Proof. intros Hs. unfold wp, choice. simpl. split; eauto. Qed.

End Operations.

(** * Ranges *)

Lemma py_range_zero start stop : py_range start stop 0 = Raise (ValueError ZeroStep).
Proof. done. Qed.

Lemma py_range_unit start stop : py_range start stop 1 = Ok (seqZ start (stop - start)).
Proof.
  unfold py_range, seqZ. simpl. f_equal.
  replace (stop - start + 1 - 1) with (stop - start) by lia. rewrite Z.div_1_r.
  apply list_eq. intros i. rewrite list_lookup_fmap, <- !list_lookup_fmap.
  clear. generalize (seq 0 (Z.to_nat (stop - start))). intros l. revert i.
  induction l as [|x l IH]; intros [|i]; simpl; try done.
  f_equal. lia.
Qed.

Lemma py_range_pos start stop step :
  0 < step ->
  exists l, py_range start stop step = Ok l /\
            (forall y, y ∈ l -> start <= y < stop) /\
            (start < stop -> exists l', l = start :: l').
Proof.
  intros Hstep. unfold py_range.
  rewrite (proj2 (Z.eqb_neq _ _)) by lia. rewrite (proj2 (Z.ltb_lt _ _) Hstep).
  eexists; split; [done|]. split.
  - intros y Hy. apply list_elem_of_In, in_map_iff in Hy as (i & <- & Hi).
    apply in_seq in Hi.
    pose proof (Z.mul_div_le (stop - start + step - 1) step Hstep).
    assert (0 <= (stop - start + step - 1) / step) by lia.
    nia.
  - intros Hlt.
    assert (1 <= (stop - start + step - 1) / step).
    { apply Z.div_le_lower_bound; lia. }
    destruct (Z.to_nat ((stop - start + step - 1) / step)) as [|n] eqn:E; [lia|].
    simpl. eexists. f_equal. lia.
Qed.

Lemma elem_of_seqZ_range (m n y : Z) : y ∈ seqZ m n -> m <= y < m + n.
Proof. intros H. apply elem_of_seqZ in H. lia. Qed.

(** * The outcome of each generator *)

Section Generator_outcomes.

Variable fp : FloatOracle.

(** The ghost flag is followed under a condition [G] that gives the ranges
    of the float expressions; with [G := False] only the outcome is
    followed. *)
Variable G : Prop.
Hypothesis G_bounded : G -> oracle_bounded fp.

(** ** Landscape *)

Lemma wp_landscape_sky height w image s :
  good (Z.to_nat height) w image -> 0 <= height -> clean G s ->
  wp (landscape_sky fp height image) s (returns G (good (Z.to_nat height) w)).
Proof.
  intros Hi Hh Hs. unfold landscape_sky, sky_rows. rewrite py_range_unit.
  apply wp_bind, wp_lift. apply wp_for_returns; [|done|done].
  intros y a t Hy Ha Ht. apply elem_of_seqZ_range in Hy.
  assert (height / 3 * 3 <= height) by (pose proof (Z.mul_div_le height 3); lia).
  eapply wp_bind_returns; [apply wp_true_div_check; [lia|done]|].
  intros _ t' _ Ht'. apply wp_setitem_row; [done|lia|done| |done].
  intros HG. destruct (G_bounded HG) as [Hsky _].
  specialize (Hsky y (height / 3)). unfold in_uint8.
  repeat constructor; lia.
Qed.

(** A row written from a noise vector as a list of three per-channel rows:
    the value has shape [(3, width)], the row [(width, 3)]. *)
Lemma wp_noisy_row_mismatch low high (mk : list Z -> list (list Z)) h w width a y s :
  (forall noise, length (mk noise) = 3%nat /\ length (hd [] (mk noise)) = length noise) ->
  low < high -> 0 <= width -> 8 * width <= intp_max -> w = Z.to_nat width -> w <> 3%nat ->
  good h w a -> 0 <= y < Z.of_nat h -> clean G s ->
  wp (noise <- randint_vec low high width ;; setitem_row_2d a y (mk noise)) s
     (raises G (ValueError CouldNotBroadcast)).
Proof.
  intros Hmk Hlt Hwidth Hsize -> Hw Ha Hy Hs.
  eapply wp_bind_returns; [by apply wp_randint_vec|].
  intros noise t [Hlen _] Ht. destruct (Hmk noise) as [H3 Hn].
  apply (wp_setitem_row_2d_mismatch G h (Z.to_nat width)); try done.
  by rewrite Hn.
Qed.


Lemma mountain_value_shape noise :
  length (mountain_value noise) = 3%nat /\ length (hd [] (mountain_value noise)) = length noise.
Proof. split; [done|]. simpl. by rewrite length_map. Qed.

Lemma ground_value_shape noise :
  length (ground_value noise) = 3%nat /\ length (hd [] (ground_value noise)) = length noise.
Proof. split; [done|]. simpl. by rewrite !length_map. Qed.

Lemma mountain_value_range noise :
  Forall (fun v => -20 <= v < 20) noise -> Forall in_uint8 (concat (mountain_value noise)).
Proof.
  intros H. unfold mountain_value. simpl. rewrite app_nil_r.
  rewrite !Forall_app, !Forall_map. unfold in_uint8.
  repeat split; (eapply Forall_impl; [exact H|]); simpl; intros; lia.
Qed.

Lemma ground_value_range noise :
  Forall (fun v => -15 <= v < 15) noise -> Forall in_uint8 (concat (ground_value noise)).
Proof.
  intros H. unfold ground_value. simpl. rewrite app_nil_r.
  rewrite !Forall_app, !Forall_map. unfold in_uint8.
  repeat split; (eapply Forall_impl; [exact H|]); simpl; intros; lia.
Qed.

Lemma band_bounds height : 0 <= height ->
  0 <= height / 3 /\ 0 <= height / 4 /\ height / 3 + height / 4 <= height.
Proof.
  intros H. pose proof (Z.mul_div_le height 3). pose proof (Z.mul_div_le height 4).
  pose proof (Z.div_pos height 3). pose proof (Z.div_pos height 4). lia.
Qed.



(** With four rows or more the first mountain row cannot be stored. *)
Lemma wp_landscape_mountains_raises height width image s :
  4 <= height -> 0 <= width -> 8 * width <= intp_max -> width <> 3 ->
  good (Z.to_nat height) (Z.to_nat width) image -> clean G s ->
  wp (landscape_mountains height width image) s
     (raises G (ValueError CouldNotBroadcast)).
Proof.
  intros Hh Hw Hsize Hne Hi Hs. unfold landscape_mountains, mountain_rows.
  rewrite py_range_unit. apply wp_bind, wp_lift.
  pose proof (band_bounds height ltac:(lia)).
  assert (1 <= height / 4) by (apply Z.div_le_lower_bound; lia).
  rewrite seqZ_cons by lia. apply wp_for_head_raises.
  apply (wp_noisy_row_mismatch (-20) 20 mountain_value
           (Z.to_nat height) (Z.to_nat width)); try done.
  - apply mountain_value_shape.
  - lia.
  - lia.
Qed.

(** With one to three rows there is no mountain row, and the first ground
    row cannot be stored. *)
Lemma wp_landscape_mountains_skipped height width image s :
  0 <= height < 4 -> clean G s ->
  wp (landscape_mountains height width image) s (returns G (fun a => a = image)).
Proof.
  intros Hh Hs. unfold landscape_mountains, mountain_rows.
  rewrite py_range_unit. apply wp_bind, wp_lift.
  rewrite (Z.div_small height 4) by lia. rewrite seqZ_nil by lia. by apply wp_ret_returns.
Qed.

Lemma wp_landscape_ground_raises height width image s :
  1 <= height -> 0 <= width -> 8 * width <= intp_max -> width <> 3 ->
  good (Z.to_nat height) (Z.to_nat width) image -> clean G s ->
  wp (landscape_ground height width image) s
     (raises G (ValueError CouldNotBroadcast)).
Proof.
  intros Hh Hw Hsize Hne Hi Hs. unfold landscape_ground, ground_rows.
  rewrite py_range_unit. apply wp_bind, wp_lift.
  pose proof (band_bounds height ltac:(lia)).
  assert (height / 3 + height / 4 < height).
  { pose proof (Z.mul_div_le height 3). pose proof (Z.mul_div_le height 4). lia. }
  rewrite seqZ_cons by lia. apply wp_for_head_raises.
  apply (wp_noisy_row_mismatch (-15) 15 ground_value
           (Z.to_nat height) (Z.to_nat width)); try done.
  - apply ground_value_shape.
  - lia.
  - lia.
Qed.

Lemma fits_vec height width : fits height width -> 8 * width <= intp_max.
Proof. intros [_ Hw]. unfold intp_max. lia. Qed.


Lemma wp_landscape_mismatch height width s :
  1 <= height -> fits height width -> width <> 3 -> clean G s ->
  wp (create_landscape_image fp (height, width)) s
     (raises G (ValueError CouldNotBroadcast)).
Proof.
  intros Hh Hfit Hne Hs. destruct (Hfit) as [_ [Hw _]].
  pose proof (fits_vec _ _ Hfit) as Hsize.
  unfold create_landscape_image, np_zeros.
  eapply wp_bind_returns; [by apply wp_np_full|]. intros a0 s0 Ha0 Hs0.
  eapply wp_bind_returns; [apply wp_landscape_sky; try done; lia|]. intros a1 s1 Ha1 Hs1.
  destruct (Z_lt_le_dec height 4) as [Hsmall|Hbig].
  - eapply wp_bind_returns; [apply wp_landscape_mountains_skipped; [lia|done]|].
    intros a2 s2 -> Hs2. by apply wp_bind_raises, wp_landscape_ground_raises.
  - by apply wp_bind_raises, wp_landscape_mountains_raises.
Qed.

(** ** Portrait *)

Lemma wp_portrait_background height width image s :
  0 <= height -> 0 <= width ->
  good (Z.to_nat height) (Z.to_nat width) image -> clean G s ->
  wp (portrait_background fp height width image) s
     (returns G (good (Z.to_nat height) (Z.to_nat width))).
Proof.
  intros Hh Hw Hi Hs. unfold portrait_background. rewrite py_range_unit.
  apply wp_bind, wp_lift. apply wp_for_returns; [|done|done].
  intros y a t Hy Ha Ht. apply elem_of_seqZ_range in Hy.
  rewrite py_range_unit. apply wp_bind, wp_lift. apply wp_for_returns; [|done|done].
  intros x b u Hx Hb Hu. apply elem_of_seqZ_range in Hx.
  eapply wp_bind_returns; [apply wp_true_div_check; [lia|done]|]. intros _ u1 _ Hu1.
  eapply wp_bind_returns; [apply wp_true_div_check; [lia|done]|]. intros _ u2 _ Hu2.
  apply wp_setitem_pixel; [done|lia|lia|done| |done].
  intros HG. destruct (G_bounded HG) as [_ Hback].
  specialize (Hback x width y height). unfold in_uint8.
  repeat constructor; lia.
Qed.

(** The face is one colour, three draws from 180..219, written over the
    mask. *)
Lemma wp_portrait_face height width image s :
  good (Z.to_nat height) (Z.to_nat width) image -> clean G s ->
  wp (portrait_face height width image) s
     (returns G (fun a =>
        good (Z.to_nat height) (Z.to_nat width) a /\
        exists face_color,
          length face_color = 3%nat /\
          Forall (fun v => 180 <= v < 220) face_color /\
          a = paint (face_mask height width) (fun _ _ => face_color) image)).
Proof.
  intros Hi Hs. unfold portrait_face.
  eapply wp_bind_returns; [apply wp_randint_vec; [done|lia|unfold intp_max; lia|done]|].
  intros face_color t [Hlen Hr] Ht.
  eapply wp_returns_mono.
  - eapply wp_setitem_mask; [done|done| |done]. intros _.
    eapply Forall_impl; [exact Hr|]. unfold in_uint8. simpl. lia.
  - intros a [-> Ha]. split; [done|]. exists face_color. split; [done|]. split; [done|].
    rewrite map_to_uint8_id; [done|].
    eapply Forall_impl; [exact Hr|]. unfold in_uint8. simpl. lia.
Qed.

Lemma wp_portrait_before_noise height width s :
  fits height width -> clean G s ->
  wp (portrait_before_noise fp (height, width)) s (returns G (face_painted height width)).
Proof.
  intros Hfit Hs. destruct (Hfit) as [[Hh _] [Hw _]].
  unfold portrait_before_noise, np_zeros.
  eapply wp_bind_returns; [by apply wp_np_full|]. intros a0 s0 Ha0 Hs0.
  eapply wp_bind_returns; [by apply wp_portrait_background|]. intros a1 s1 Ha1 Hs1.
  eapply wp_returns_mono; [by apply wp_portrait_face|].
  intros a (Ha & face_color & Hlen & Hr & ->). split; [done|].
  exists face_color. split; [done|]. split; [done|].
  intros y x Hy Hx Hm. rewrite pixel_paint, Hm.
  destruct (pixel_good _ _ a1 y x Ha1 Hy Hx) as (px & -> & _). done.
Qed.

Lemma wp_portrait_returns height width s :
  fits height width -> clean G s ->
  wp (create_portrait_image fp (height, width)) s
     (returns G (good (Z.to_nat height) (Z.to_nat width))).
Proof.
  intros Hfit Hs. unfold create_portrait_image, add_noise.
  eapply wp_bind_returns; [by apply wp_portrait_before_noise|]. intros a s0 [Ha _] Hs0.
  eapply wp_bind_returns; [by apply wp_randint_3d|]. intros noise s1 Hn Hs1.
  eapply wp_returns_mono; [by eapply wp_add_clip_uint8|]. by intros a' [_ ?].
Qed.

(** ** Architecture *)

Lemma stripe_step width : 8 <= width -> 0 < width / 8 * 2.
Proof. intros H. assert (1 <= width / 8) by (apply Z.div_le_lower_bound; lia). lia. Qed.

Lemma floor_step height : 12 <= height -> 0 < height / 12.
Proof. intros H. assert (1 <= height / 12) by (apply Z.div_le_lower_bound; lia). lia. Qed.

Lemma wp_architecture_stripes height width image s :
  8 <= width -> good (Z.to_nat height) (Z.to_nat width) image -> clean G s ->
  wp (architecture_stripes height width image) s
     (returns G (good (Z.to_nat height) (Z.to_nat width))).
Proof.
  intros Hw Hi Hs. unfold architecture_stripes.
  destruct (py_range_pos 0 width (width / 8 * 2) (stripe_step _ Hw)) as (l & -> & Hl & _).
  apply wp_bind, wp_lift. apply wp_for_returns; [|done|done].
  intros i a t Hin Ha Ht.
  eapply wp_bind_returns; [by apply wp_randint|]. intros c t' Hc Ht'. simpl in Hc.
  eapply wp_returns_mono.
  - eapply wp_setitem_region; [done|done| |done]. intros _. unfold in_uint8.
    repeat constructor; lia.
  - by intros a' [_ ?].
Qed.

Lemma wp_architecture_stripes_zero_step height width image s :
  0 <= width < 8 -> clean G s ->
  wp (architecture_stripes height width image) s (raises G (ValueError ZeroStep)).
Proof.
  intros Hw Hs. unfold architecture_stripes. rewrite Z.div_small by done.
  simpl. rewrite py_range_zero. apply wp_bind, wp_lift. by split.
Qed.

Lemma wp_architecture_floors height width image s :
  12 <= height -> good (Z.to_nat height) (Z.to_nat width) image -> clean G s ->
  wp (architecture_floors height width image) s
     (returns G (good (Z.to_nat height) (Z.to_nat width))).
Proof.
  intros Hh Hi Hs. unfold architecture_floors.
  destruct (py_range_pos (height / 12) height (height / 12) (floor_step _ Hh))
    as (l & -> & Hl & _).
  apply wp_bind, wp_lift. apply wp_for_returns; [|done|done].
  intros y a t Hin Ha Ht. destruct (y <? height); [|by apply wp_ret_returns].
  eapply wp_returns_mono.
  - eapply wp_setitem_region; [done|done| |done]. intros _. unfold in_uint8.
    repeat constructor; lia.
  - by intros a' [_ ?].
Qed.

Lemma wp_architecture_floors_zero_step height width image s :
  0 <= height < 12 -> clean G s ->
  wp (architecture_floors height width image) s (raises G (ValueError ZeroStep)).
Proof.
  intros Hh Hs. unfold architecture_floors. rewrite Z.div_small by done.
  rewrite py_range_zero. apply wp_bind, wp_lift. by split.
Qed.

Lemma wp_architecture_window height width building floor image s :
  good (Z.to_nat height) (Z.to_nat width) image -> clean G s ->
  wp (architecture_window height width building floor image) s
     (returns G (good (Z.to_nat height) (Z.to_nat width))).
Proof.
  intros Hi Hs. unfold architecture_window.
  destruct (window_rect height width building floor) as [[[wx wy] ww] wh].
  destruct (window_drawn height width building floor); [|by apply wp_ret_returns].
  eapply wp_bind_returns; [by apply wp_random_gt_03|]. intros lit t _ Ht.
  eapply wp_returns_mono.
  - eapply wp_setitem_region; [done|by destruct lit| |done]. intros _. unfold in_uint8.
    destruct lit; repeat constructor; lia.
  - by intros a' [_ ?].
Qed.

Lemma wp_architecture_windows height width image s :
  12 <= height -> 8 <= width ->
  good (Z.to_nat height) (Z.to_nat width) image -> clean G s ->
  wp (architecture_windows height width image) s
     (returns G (good (Z.to_nat height) (Z.to_nat width))).
Proof.
  intros Hh Hw Hi Hs. unfold architecture_windows.
  destruct (py_range_pos 0 width (width / 8 * 2) (stripe_step _ Hw)) as (l & -> & _).
  apply wp_bind, wp_lift. apply wp_for_returns; [|done|done].
  intros building a t _ Ha Ht.
  destruct (py_range_pos (height / 12) (height - height / 12) (height / 12)
              (floor_step _ Hh)) as (l' & -> & _).
  apply wp_bind, wp_lift. apply wp_for_returns; [|done|done].
  intros floor b u _ Hb Hu. by apply wp_architecture_window.
Qed.

Lemma wp_architecture_zero_step height width s :
  fits height width -> width < 8 \/ height < 12 -> clean G s ->
  wp (create_architecture_image (height, width)) s (raises G (ValueError ZeroStep)).
Proof.
  intros Hfit Hsmall Hs. destruct (Hfit) as [[Hh _] [Hw _]].
  unfold create_architecture_image.
  eapply wp_bind_returns; [apply wp_np_full; try done; unfold in_uint8; lia|].
  intros a0 s0 Ha0 Hs0.
  destruct (Z_lt_le_dec width 8) as [Hn|Hwide].
  - apply wp_bind_raises, wp_architecture_stripes_zero_step; [lia|done].
  - eapply wp_bind_returns; [by apply wp_architecture_stripes|]. intros a1 s1 Ha1 Hs1.
    apply wp_bind_raises, wp_architecture_floors_zero_step; [lia|done].
Qed.

Lemma wp_architecture_returns height width s :
  12 <= height -> 8 <= width -> fits height width -> clean G s ->
  wp (create_architecture_image (height, width)) s
     (returns G (good (Z.to_nat height) (Z.to_nat width))).
Proof.
  intros Hh Hw Hfit Hs. unfold create_architecture_image, add_noise.
  eapply wp_bind_returns; [apply wp_np_full; try done; unfold in_uint8; lia|].
  intros a0 s0 Ha0 Hs0.
  eapply wp_bind_returns; [by apply wp_architecture_stripes|]. intros a1 s1 Ha1 Hs1.
  eapply wp_bind_returns; [by apply wp_architecture_floors|]. intros a2 s2 Ha2 Hs2.
  eapply wp_bind_returns; [by apply wp_architecture_windows|]. intros a3 s3 Ha3 Hs3.
  eapply wp_bind_returns; [apply wp_randint_3d; try done; lia|]. intros n s4 Hn Hs4.
  eapply wp_returns_mono; [by eapply wp_add_clip_uint8|]. by intros a' [_ ?].
Qed.

(** ** Nature *)

Lemma wp_nature_background height width image s :
  good (Z.to_nat height) (Z.to_nat width) image -> clean G s ->
  wp (nature_background fp height width image) s
     (returns G (good (Z.to_nat height) (Z.to_nat width))).
Proof.
  intros Hi Hs. unfold nature_background.
  eapply wp_bind_returns.
  { apply wp_setitem_channel; [done|lia| |done]. intros; apply np_clip_range. }
  intros a0 s0 Ha0 Hs0. eapply wp_bind_returns.
  { apply wp_setitem_channel; [done|lia| |done]. intros; apply np_clip_range. }
  intros a1 s1 Ha1 Hs1.
  apply wp_setitem_channel; [done|lia| |done]. intros; apply np_clip_range.
Qed.

Lemma wp_nature_spot height width image s :
  clean G s ->
  wp (nature_spot height width image) s (raises G (ValueError (spot_failure height width))).
Proof.
  intros Hs. unfold nature_spot, spot_failure.
  destruct (Z.leb_spec width 20) as [Hw|Hw]; simpl.
  { apply wp_bind_raises, wp_randint_empty; [lia|done]. }
  eapply wp_bind_returns; [apply wp_randint; [lia|done]|]. intros spot_x s0 _ Hs0.
  destruct (Z.leb_spec height 20) as [Hh|Hh]; simpl.
  { apply wp_bind_raises, wp_randint_empty; [lia|done]. }
  eapply wp_bind_returns; [apply wp_randint; [lia|done]|]. intros spot_y s1 _ Hs1.
  eapply wp_bind_returns; [apply wp_randint; [lia|done]|]. intros spot_size s2 _ Hs2.
  by apply wp_bind_raises, wp_choice_nested.
Qed.

Lemma wp_nature_raises height width s :
  fits height width -> clean G s ->
  wp (create_nature_image fp (height, width)) s
     (raises G (ValueError (spot_failure height width))).
Proof.
  intros Hfit Hs. unfold create_nature_image, np_zeros.
  eapply wp_bind_returns; [by apply wp_np_full|]. intros a0 s0 Ha0 Hs0.
  eapply wp_bind_returns; [by apply wp_nature_background|]. intros a1 s1 Ha1 Hs1.
  rewrite py_range_unit. apply wp_bind, wp_lift.
  rewrite seqZ_cons by lia. by apply wp_for_head_raises, wp_nature_spot.
Qed.

(** ** Abstract *)

Lemma wp_abstract_shape height width image s :
  clean G s ->
  wp (abstract_shape height width image) s (raises G (ValueError NotOneDimensional)).
Proof.
  intros Hs. unfold abstract_shape.
  eapply wp_bind_returns; [by apply wp_choice_shapes|]. intros shape s0 _ Hs0.
  by apply wp_bind_raises, wp_choice_nested.
Qed.


Lemma wp_abstract_raises height width s :
  fits height width -> clean G s ->
  wp (create_abstract_image fp (height, width)) s
     (raises G (ValueError NotOneDimensional)).
Proof.
  intros Hfit Hs. unfold create_abstract_image.
  eapply wp_bind_returns; [apply wp_randint_3d_dtype; try done; lia|]. intros a0 s0 _ Hs0.
  rewrite py_range_unit. apply wp_bind, wp_lift.
  rewrite seqZ_cons by lia. by apply wp_bind_raises, wp_for_head_raises, wp_abstract_shape.
Qed.

(** ** Whatever the size

    A call returns a well-formed image or raises a [ValueError]: the
    canvas, a noise row or the noise array may be refused for its size. *)

Lemma wp_add_noise_any low high height width image s :
  low < high -> good (Z.to_nat height) (Z.to_nat width) image -> clean G s ->
  wp (add_noise low high height width image) s
     (returns_or_value_error G (good (Z.to_nat height) (Z.to_nat width))).
Proof.
  intros Hlt Hi Hs. unfold add_noise, randint_3d.
  eapply wp_bind_value_error; [by apply wp_randint_3d_any|]. intros noise t Hn Ht.
  apply wp_returns_value_error.
  eapply wp_returns_mono; [by eapply wp_add_clip_uint8|]. by intros a' [_ ?].
Qed.

Lemma wp_noisy_row_any low high (mk : list Z -> list (list Z)) h w width a y s :
  (forall noise, Forall (fun v => low <= v < high) noise -> Forall in_uint8 (concat (mk noise))) ->
  low < high -> good h w a -> 0 <= y < Z.of_nat h -> clean G s ->
  wp (noise <- randint_vec low high width ;; setitem_row_2d a y (mk noise)) s
     (returns_or_value_error G (good h w)).
Proof.
  intros Hr Hlt Ha Hy Hs.
  eapply wp_bind_value_error; [by apply wp_randint_vec_any|].
  intros noise t [_ Hnoise] Ht. apply wp_setitem_row_2d_any; auto.
Qed.

Lemma wp_landscape_any height width s :
  clean G s ->
  wp (create_landscape_image fp (height, width)) s
     (returns_or_value_error G (good (Z.to_nat height) (Z.to_nat width))).
Proof.
  intros Hs. unfold create_landscape_image, np_zeros.
  eapply wp_bind_value_error; [apply wp_np_full_any; [unfold in_uint8; lia|done]|].
  intros a0 s0 (Ha0 & Hh & Hw) Hs0.
  pose proof (band_bounds height Hh) as Hbands.
  eapply wp_bind_value_error; [by apply wp_returns_value_error, wp_landscape_sky|].
  intros a1 s1 Ha1 Hs1.
  eapply wp_bind_value_error.
  { unfold landscape_mountains, mountain_rows. rewrite py_range_unit.
    apply wp_bind, wp_lift. apply wp_for_value_error; [|exact Ha1|done].
    intros y a t Hy Ha Ht. apply elem_of_seqZ_range in Hy.
    apply (wp_noisy_row_any (-20) 20 mountain_value); try done;
      [apply mountain_value_range|lia]. }
  intros a2 s2 Ha2 Hs2.
  eapply wp_bind_value_error.
  { unfold landscape_ground, ground_rows. rewrite py_range_unit.
    apply wp_bind, wp_lift. apply wp_for_value_error; [|exact Ha2|done].
    intros y a t Hy Ha Ht. apply elem_of_seqZ_range in Hy.
    apply (wp_noisy_row_any (-15) 15 ground_value); try done;
      [apply ground_value_range|lia]. }
  intros a3 s3 Ha3 Hs3. apply wp_add_noise_any; [lia|done|done].
Qed.

Lemma wp_portrait_any height width s :
  clean G s ->
  wp (create_portrait_image fp (height, width)) s
     (returns_or_value_error G (good (Z.to_nat height) (Z.to_nat width))).
Proof.
  intros Hs. unfold create_portrait_image, portrait_before_noise, np_zeros.
  eapply wp_bind_value_error.
  { eapply wp_bind_value_error; [apply wp_np_full_any; [unfold in_uint8; lia|done]|].
    intros a0 s0 (Ha0 & Hh & Hw) Hs0.
    eapply wp_bind_value_error; [by apply wp_returns_value_error, wp_portrait_background|].
    intros a1 s1 Ha1 Hs1. apply wp_returns_value_error.
    eapply wp_returns_mono; [by apply wp_portrait_face|]. by intros a [Ha _]. }
  intros a s1 Ha Hs1. apply wp_add_noise_any; [lia|done|done].
Qed.

Lemma wp_architecture_any height width s :
  clean G s ->
  wp (create_architecture_image (height, width)) s
     (returns_or_value_error G (good (Z.to_nat height) (Z.to_nat width))).
Proof.
  intros Hs. unfold create_architecture_image.
  eapply wp_bind_value_error; [apply wp_np_full_any; [unfold in_uint8; lia|done]|].
  intros a0 s0 (Ha0 & Hh & Hw) Hs0.
  destruct (Z_lt_le_dec width 8) as [Hn|Hwide].
  { eapply wp_raises_value_error, wp_bind_raises, wp_architecture_stripes_zero_step;
      [lia|done]. }
  eapply wp_bind_value_error; [by apply wp_returns_value_error, wp_architecture_stripes|].
  intros a1 s1 Ha1 Hs1.
  destruct (Z_lt_le_dec height 12) as [Hlow|Hhigh].
  { eapply wp_raises_value_error, wp_bind_raises, wp_architecture_floors_zero_step;
      [lia|done]. }
  eapply wp_bind_value_error; [by apply wp_returns_value_error, wp_architecture_floors|].
  intros a2 s2 Ha2 Hs2.
  eapply wp_bind_value_error; [by apply wp_returns_value_error, wp_architecture_windows|].
  intros a3 s3 Ha3 Hs3. apply wp_add_noise_any; [lia|done|done].
Qed.

(** The last two never return. *)
Lemma wp_nature_any height width s :
  clean G s ->
  wp (create_nature_image fp (height, width)) s
     (returns_or_value_error G (fun _ => False)).
Proof.
  intros Hs. unfold create_nature_image, np_zeros.
  eapply wp_bind_value_error; [apply wp_np_full_any; [unfold in_uint8; lia|done]|].
  intros a0 s0 (Ha0 & Hh & Hw) Hs0.
  eapply wp_bind_value_error; [by apply wp_returns_value_error, wp_nature_background|].
  intros a1 s1 Ha1 Hs1.
  rewrite py_range_unit. apply wp_bind, wp_lift. rewrite seqZ_cons by lia.
  by eapply wp_raises_value_error, wp_for_head_raises, wp_nature_spot.
Qed.

Lemma wp_abstract_any height width s :
  clean G s ->
  wp (create_abstract_image fp (height, width)) s
     (returns_or_value_error G (fun _ => False)).
Proof.
  intros Hs. unfold create_abstract_image.
  eapply wp_bind_value_error; [apply wp_randint_3d_any; [lia|done]|].
  intros a0 s0 _ Hs0.
  rewrite py_range_unit. apply wp_bind, wp_lift. rewrite seqZ_cons by lia.
  by eapply wp_raises_value_error, wp_bind_raises, wp_for_head_raises, wp_abstract_shape.
Qed.

End Generator_outcomes.

(** * Results of a run, lemmas *)

Lemma clean_False s : clean False s.
Proof. intros []. Qed.

Lemma outcome_returns {A} (P : A -> Prop) (m : M A) s :
  wp m s (returns False P) -> exists a, outcome m s = Ok a /\ P a.
Proof. by intros [_ H]. Qed.

Lemma outcome_raises {A} e (m : M A) s :
  wp m s (raises False e) -> outcome m s = Raise e.
Proof. by intros [_ H]. Qed.

Lemma verdict_returns {A} (P : A -> Prop) (m : M A) s :
  wp m s (returns False P) -> verdict_of (outcome m s) = Returns.
Proof. intros H. apply outcome_returns in H as (a & -> & _). done. Qed.

Lemma verdict_raises {A} e (m : M A) s :
  wp m s (raises False e) -> verdict_of (outcome m s) = Fails e.
Proof. intros H. apply outcome_raises in H as ->. done. Qed.

Lemma run_raises {A} e (m : M A) s :
  wp m s (raises False e) -> exists s', m s = (Raise e, s').
Proof. unfold wp. destruct (m s) as [r s']. simpl. intros [_ ->]. eauto. Qed.

Lemma run_returns {A} (P : A -> Prop) (m : M A) s :
  wp m s (returns False P) -> exists a s', m s = (Ok a, s') /\ P a.
Proof. unfold wp. destruct (m s) as [r s']. simpl. intros [_ (a & -> & Ha)]. eauto. Qed.

(** * Reading elements *)

Lemma nth_map_seq {A} (f : nat -> A) (n i : nat) (d : A) :
  (i < n)%nat -> nth i (map f (seq 0 n)) d = f i.
Proof.
  intros Hi. rewrite (nth_indep _ d (f 0%nat)) by (by rewrite length_map, length_seq).
  rewrite map_nth. by rewrite seq_nth.
Qed.

Lemma item_map_items h w f a y x c :
  good h w a -> (y < h)%nat -> (x < w)%nat -> (c < 3)%nat ->
  item (map_items f a) y x c = f y x c (item a y x c).
Proof.
  intros (_ & Hl & Hd) Hy Hx Hc. unfold item, map_items. simpl.
  rewrite !nth_lookup, list_lookup_imap.
  destruct (lookup_lt_is_Some_2 (data a) y) as [row Hrow]; [lia|].
  rewrite Hrow. simpl. rewrite list_lookup_imap.
  rewrite Forall_lookup in Hd. destruct (Hd _ _ Hrow) as [Hw Hpxs].
  destruct (lookup_lt_is_Some_2 row x) as [px Hpx]; [lia|].
  rewrite Hpx. simpl. rewrite list_lookup_imap.
  rewrite Forall_lookup in Hpxs. destruct (Hpxs _ _ Hpx) as [H3 _].
  destruct (lookup_lt_is_Some_2 px c) as [v Hv]; [lia|].
  by rewrite Hv.
Qed.

(** The element [(y, x, c)] of a random array is draw number
    [(y * w + x) * 3 + c]. *)
Lemma randint_3d_item low high height width s y x c :
  low < high -> 8 * (height * width * 3) <= intp_max ->
  (y < Z.to_nat height)%nat -> (x < Z.to_nat width)%nat -> (c < 3)%nat ->
  exists noise,
    randint_3d low high height width 3 s =
      (Ok noise, advance (Z.to_nat height * Z.to_nat width * 3) s) /\
    shape noise = (Z.to_nat height, Z.to_nat width, 3%nat) /\
    item noise y x c = randint_at low high s ((y * Z.to_nat width + x) * 3 + c).
Proof.
  intros Hlt Hsize Hy Hx Hc. unfold randint_3d, randint_3d_dtype. cbv zeta.
  rewrite (np_prod_canvas 8) by (done || lia).
  rewrite (proj2 (Z.ltb_lt _ _) Hlt).
  rewrite check_shape_canvas by (rewrite ?Z.max_r by lia; lia).
  eexists. split; [done|]. split; [done|].
  unfold item. cbn [data]. by rewrite !nth_map_seq.
Qed.

(** The noise pass, element by element. *)
Lemma add_noise_item low high height width image s y x c :
  low < high -> 8 * (height * width * 3) <= intp_max ->
  good (Z.to_nat height) (Z.to_nat width) image ->
  (y < Z.to_nat height)%nat -> (x < Z.to_nat width)%nat -> (c < 3)%nat ->
  exists image',
    outcome (add_noise low high height width image) s = Ok image' /\
    good (Z.to_nat height) (Z.to_nat width) image' /\
    item image' y x c =
      np_clip 0 255 (item image y x c
                     + randint_at low high s ((y * Z.to_nat width + x) * 3 + c)).
Proof.
  intros Hlt Hsize Hi Hy Hx Hc.
  destruct (randint_3d_item low high height width s y x c) as (noise & Hrun & Hshape & Hitem);
    try done.
  pose proof (wp_add_clip_uint8 False _ _ image noise
                (advance (Z.to_nat height * Z.to_nat width * 3) s) Hi Hshape
                (clean_False _)) as Hadd.
  apply outcome_returns in Hadd as (image' & Hout & -> & Hgood).
  exists (map_items (fun y x c v => to_uint8 (np_clip 0 255 (v + item noise y x c))) image).
  split; [|split; [done|]].
  - unfold outcome, add_noise, bind. rewrite Hrun. exact Hout.
  - rewrite (item_map_items _ _ _ _ _ _ _ Hi) by done.
    rewrite to_uint8_id by apply np_clip_range. by rewrite Hitem.
Qed.

(** The noise array of a canvas that fits is within NumPy's limit. *)
Lemma fits_noise height width : fits height width -> 8 * (height * width * 3) <= intp_max.
Proof.
  intros [Hh Hw]. unfold intp_max.
  assert (height * width <= 2 ^ 29 * 2 ^ 29) by (apply Z.mul_le_mono_nonneg; lia).
  lia.
Qed.

(** * What every call ends in, lemmas *)

Lemma no_bound fp : False -> oracle_bounded fp.
Proof. intros []. Qed.


Lemma architecture_outcome height width s :
  fits height width ->
  verdict_of (outcome (create_architecture_image (height, width)) s)
  = architecture_verdict height width.
Proof.
  intros Hfit. unfold architecture_verdict.
  destruct (Z.ltb_spec width 8) as [H8|H8]; simpl.
  - eapply verdict_raises, wp_architecture_zero_step; [done|by left|apply clean_False].
  - destruct (Z.ltb_spec height 12) as [H12|H12].
    + eapply verdict_raises, wp_architecture_zero_step;
        [done|by right|apply clean_False].
    + eapply verdict_returns, wp_architecture_returns; [done|done|done|apply clean_False].
Qed.

(** The default sizes fit. *)
Lemma default_sizes_fit :
  fits 720 1280 /\ fits 960 720 /\ fits 800 1200 /\ fits 1080 1920 /\ fits 600 800.
Proof. unfold fits. lia. Qed.

(** A call that raises raises a [ValueError]. *)
Lemma value_error_only {A} (P : A -> Prop) (m : M A) s e :
  wp m s (returns_or_value_error False P) -> outcome m s = Raise e ->
  exists why, e = ValueError why.
Proof.
  unfold wp, outcome. intros [_ [(a & Ha & _)|[why Hw]]] Hr; rewrite Hr in *; [done|].
  injection Hw as ->. eauto.
Qed.


(** ** The ghost flag along every call *)

Section Settled.

Variable G : Prop.

Lemma value_error_settled h w m s :
  wp m s (returns_or_value_error G (good h w)) -> wp m s (settled G).
Proof.
  intros H. eapply wp_mono; [exact H|]. intros r s' [Hc [(a & -> & Ha)|[why ->]]].
  - split; [done|]. intros b [= <-]. eauto.
  - split; [done|]. done.
Qed.

Lemma never_settled (m : M ndarray) s :
  wp m s (returns_or_value_error G (fun _ => False)) -> wp m s (settled G).
Proof.
  intros H. eapply wp_mono; [exact H|]. intros r s' [Hc [(a & _ & [])|[why ->]]].
  split; [done|]. done.
Qed.

Variable fp : FloatOracle.
Hypothesis G_bounded : G -> oracle_bounded fp.

Lemma landscape_settled size s :
  clean G s -> wp (create_landscape_image fp size) s (settled G).
Proof.
  destruct size as [height width]. intros Hs.
  eapply value_error_settled. by apply wp_landscape_any.
Qed.

Lemma portrait_settled size s :
  clean G s -> wp (create_portrait_image fp size) s (settled G).
Proof.
  destruct size as [height width]. intros Hs.
  eapply value_error_settled. by apply wp_portrait_any.
Qed.

Lemma architecture_settled size s :
  clean G s -> wp (create_architecture_image size) s (settled G).
Proof.
  destruct size as [height width]. intros Hs.
  eapply value_error_settled. by apply wp_architecture_any.
Qed.

Lemma nature_settled size s :
  clean G s -> wp (create_nature_image fp size) s (settled G).
Proof.
  destruct size as [height width]. intros Hs.
  apply never_settled. by apply wp_nature_any.
Qed.

Lemma abstract_settled size s :
  clean G s -> wp (create_abstract_image fp size) s (settled G).
Proof.
  destruct size as [height width]. intros Hs.
  apply never_settled. by apply wp_abstract_any.
Qed.

End Settled.

Lemma generators_cases fp name g (P : (Z * Z -> M ndarray) -> Prop) :
  (name, g) ∈ generators fp ->
  P (create_landscape_image fp) -> P (create_portrait_image fp) ->
  P create_architecture_image -> P (create_nature_image fp) ->
  P (create_abstract_image fp) -> P g.
Proof.
  intros Hin. unfold generators in Hin.
  repeat (apply elem_of_cons in Hin as [[= _ ->]|Hin]; [by intros|]).
  by apply elem_of_nil in Hin.
Qed.

Lemma generators_raise_value_errors fp name g height width s e :
  (name, g) ∈ generators fp ->
  outcome (g (height, width)) s = Raise e -> exists why, e = ValueError why.
Proof.
  intros Hin. pattern g. eapply generators_cases; [exact Hin|..]; intros Hr.
  - eapply value_error_only; [|exact Hr].
    apply (wp_landscape_any fp False (no_bound fp)), clean_False.
  - eapply value_error_only; [|exact Hr].
    apply (wp_portrait_any fp False (no_bound fp)), clean_False.
  - eapply value_error_only; [|exact Hr]. apply (wp_architecture_any False), clean_False.
  - eapply value_error_only; [|exact Hr]. apply (wp_nature_any fp False), clean_False.
  - eapply value_error_only; [|exact Hr]. apply (wp_abstract_any fp False), clean_False.
Qed.

(** * The fills, pixel by pixel *)

(** A loop over [range(m, m + n)] with an invariant that follows the loop
    variable. *)
Lemma wp_for_seqZ {A} G (I : Z -> A -> Prop) (body : Z -> A -> M A) (n : nat) :
  forall m a s,
    I m a -> clean G s ->
    (forall k b t, m <= k < m + Z.of_nat n -> I k b -> clean G t ->
       wp (body k b) t (returns G (I (k + 1)))) ->
    wp (for_each (seqZ m (Z.of_nat n)) body a) s (returns G (I (m + Z.of_nat n))).
Proof.
  induction n as [|n IH]; intros m a s Ha Hs Hbody.
  - rewrite seqZ_nil by lia. replace (m + Z.of_nat 0) with m by lia.
    by apply wp_ret_returns.
  - rewrite seqZ_cons by lia. simpl for_each.
    eapply wp_bind_returns; [apply Hbody; [lia|done|done]|].
    intros a' s' Ha' Hs'.
    replace (Z.pred (Z.of_nat (S n))) with (Z.of_nat n) by lia.
    replace (m + Z.of_nat (S n)) with (Z.succ m + Z.of_nat n) by lia.
    apply IH; [by replace (Z.succ m) with (m + 1) by lia|done|].
    intros k b t Hk. apply Hbody. lia.
Qed.

Lemma rewritten_refl a f : rewritten (fun _ _ => false) f a a.
Proof. intros y x. by destruct (pixel a y x). Qed.

(** Painting one more region with the values of [f]. *)
Lemma rewritten_paint P sel f v a0 a :
  rewritten P f a0 a ->
  (forall y x, sel y x = true -> v = f y x) ->
  rewritten (fun y x => P y x || sel y x) f a0 (paint sel (fun _ _ => v) a).
Proof.
  intros Ha Hv y x. rewrite pixel_paint, Ha.
  destruct (pixel a0 y x) as [old|]; simpl; [|done]. f_equal.
  destruct (sel y x) eqn:Hsel; [rewrite (Hv _ _ Hsel)|]; by destruct (P y x).
Qed.

(** Only the selection inside the canvas matters. *)
Lemma rewritten_ext h w P Q f a0 a :
  good h w a0 -> rewritten P f a0 a ->
  (forall y x, (y < h)%nat -> (x < w)%nat -> P y x = Q y x) ->
  rewritten Q f a0 a.
Proof.
  intros H0 Ha HPQ y x. rewrite Ha.
  destruct (pixel a0 y x) as [old|] eqn:Hold; simpl; [|done].
  destruct (pixel_inside _ _ _ _ _ _ H0 Hold). by rewrite HPQ.
Qed.

Section Exact_operations.

Variable G : Prop.

Lemma wp_setitem_row_exact h w a y v s :
  good h w a -> 0 <= y < Z.of_nat h -> length v = 3%nat ->
  (G -> Forall in_uint8 v) -> clean G s ->
  wp (setitem_row a y v) s
     (returns G (fun a' =>
        a' = paint (fun y' _ => (y' =? Z.to_nat y)%nat) (fun _ _ => map to_uint8 v) a /\
        good h w a')).
Proof.
  intros Ha Hy Hv Hr Hs. unfold setitem_row.
  rewrite (good_shape _ _ _ Ha). simpl. rewrite index_in_range by done.
  apply wp_bind, wp_lift. by apply (wp_store_pixels G h w).
Qed.

Lemma wp_setitem_pixel_exact h w a y x v s :
  good h w a -> 0 <= y < Z.of_nat h -> 0 <= x < Z.of_nat w -> length v = 3%nat ->
  (G -> Forall in_uint8 v) -> clean G s ->
  wp (setitem_pixel a y x v) s
     (returns G (fun a' =>
        a' = paint (fun y' x' => (y' =? Z.to_nat y)%nat && (x' =? Z.to_nat x)%nat)
                   (fun _ _ => map to_uint8 v) a /\
        good h w a')).
Proof.
  intros Ha Hy Hx Hv Hr Hs. unfold setitem_pixel.
  rewrite (good_shape _ _ _ Ha). simpl. rewrite !index_in_range by done.
  apply wp_bind, wp_lift, wp_bind, wp_lift. by apply (wp_store_pixels G h w).
Qed.

Lemma wp_np_full_exact height width v s :
  fits height width -> in_uint8 v -> clean G s ->
  wp (np_full height width 3 v) s
     (returns G (fun a => a = filled (Z.to_nat height) (Z.to_nat width) 3 v)).
Proof.
  intros Hfit Hv Hs. unfold np_full. rewrite check_shape_fits by (done || lia).
  apply wp_bind, wp_lift.
  apply wp_bind. apply (wp_note_cast G); [intros _; by constructor| |done].
  intros s' Hs'. apply wp_ret_returns; [done|]. by rewrite to_uint8_id.
Qed.

(** The face is written in one colour, the next three draws. *)
Lemma wp_portrait_face_exact height width image s :
  good (Z.to_nat height) (Z.to_nat width) image -> clean G s ->
  wp (portrait_face height width image) s
     (returns G (fun a =>
        good (Z.to_nat height) (Z.to_nat width) a /\
        a = paint (face_mask height width)
              (fun _ _ => map (randint_at 180 220 s) [0; 1; 2]%nat) image)).
Proof.
  intros Hi Hs. unfold portrait_face.
  eapply wp_bind_returns;
    [apply wp_randint_vec_exact; [lia|lia|unfold intp_max; lia|done]|].
  intros face_color t -> Ht.
  change (seq 0 (Z.to_nat 3)) with [0; 1; 2]%nat.
  assert (Hr : Forall in_uint8 (map (randint_at 180 220 s) [0; 1; 2]%nat)).
  { apply Forall_map, Forall_forall. intros k _. simpl.
    pose proof (randint_at_bounds 180 220 s k ltac:(lia)). unfold in_uint8. lia. }
  eapply wp_returns_mono.
  - eapply wp_setitem_mask; [done|done|by intros _|done].
  - intros a [-> Ha]. split; [done|]. by rewrite map_to_uint8_id.
Qed.

End Exact_operations.

Section Fills.

Variable fp : FloatOracle.
Variable G : Prop.
Hypothesis G_bounded : G -> oracle_bounded fp.

(** The sky loop sets the rows [0, height//3) and nothing else. *)
Lemma wp_landscape_sky_exact height w image s :
  good (Z.to_nat height) w image -> 0 <= height -> clean G s ->
  wp (landscape_sky fp height image) s
     (returns G (fun a =>
        good (Z.to_nat height) w a /\
        rewritten (fun y _ => Z.of_nat y <? height / 3)
                  (fun y _ => map to_uint8 (sky_pixel fp height y)) image a)).
Proof.
  intros Hi Hh Hs. unfold landscape_sky, sky_rows. rewrite py_range_unit.
  apply wp_bind, wp_lift.
  pose proof (band_bounds height Hh) as (H3 & H4 & Hsum).
  replace (height / 3 - 0) with (Z.of_nat (Z.to_nat (height / 3))) by lia.
  eapply wp_returns_mono.
  - apply (wp_for_seqZ G (fun k a =>
             good (Z.to_nat height) w a /\
             rewritten (fun y _ => Z.of_nat y <? k)
                       (fun y _ => map to_uint8 (sky_pixel fp height y)) image a)).
    + split; [done|]. eapply rewritten_ext; [exact Hi|apply rewritten_refl|].
      intros. symmetry. apply Z.ltb_ge. lia.
    + done.
    + intros k b t Hk [Hb Hrw] Ht.
      eapply wp_bind_returns; [apply wp_true_div_check; [lia|done]|].
      intros _ t' _ Ht'. eapply wp_returns_mono.
      * apply (wp_setitem_row_exact G (Z.to_nat height) w); [done|lia|done| |done].
        intros HG. destruct (G_bounded HG) as [Hsky _].
        specialize (Hsky k (height / 3)). unfold in_uint8.
        repeat constructor; lia.
      * intros a' [-> Ha']. split; [done|].
        eapply rewritten_ext; [exact Hi| |].
        -- apply rewritten_paint; [exact Hrw|].
           intros y x Hsel. apply Nat.eqb_eq in Hsel. subst y.
           unfold sky_pixel. by rewrite Z2Nat.id by lia.
        -- intros y x _ _. simpl. apply eq_true_iff_eq.
           rewrite orb_true_iff, Nat.eqb_eq, !Z.ltb_lt. lia.
  - intros a [Ha Hrw]. split; [done|].
    by replace (0 + Z.of_nat (Z.to_nat (height / 3))) with (height / 3) in Hrw by lia.
Qed.

(** The backdrop loops set every pixel of the canvas. *)
Lemma wp_portrait_background_exact height width image s :
  0 <= height -> 0 <= width ->
  good (Z.to_nat height) (Z.to_nat width) image -> clean G s ->
  wp (portrait_background fp height width image) s
     (returns G (fun a =>
        good (Z.to_nat height) (Z.to_nat width) a /\
        rewritten (fun _ _ => true)
                  (fun y x => map to_uint8 (backdrop_pixel fp height width y x)) image a)).
Proof.
  intros Hh Hw Hi Hs. unfold portrait_background. rewrite py_range_unit.
  apply wp_bind, wp_lift.
  set (F := fun y x => map to_uint8 (backdrop_pixel fp height width y x)).
  replace (height - 0) with (Z.of_nat (Z.to_nat height)) by lia.
  eapply wp_returns_mono.
  - apply (wp_for_seqZ G (fun k a =>
             good (Z.to_nat height) (Z.to_nat width) a /\
             rewritten (fun y _ => Z.of_nat y <? k) F image a)).
    + split; [done|]. eapply rewritten_ext; [exact Hi|apply rewritten_refl|].
      intros. symmetry. apply Z.ltb_ge. lia.
    + done.
    + intros k b t Hk [Hb Hrw] Ht.
      rewrite py_range_unit. apply wp_bind, wp_lift.
      replace (width - 0) with (Z.of_nat (Z.to_nat width)) by lia.
      eapply wp_returns_mono.
      * apply (wp_for_seqZ G (fun j a =>
                 good (Z.to_nat height) (Z.to_nat width) a /\
                 rewritten (fun y x => (Z.of_nat y <? k)
                                       || ((y =? Z.to_nat k)%nat && (Z.of_nat x <? j)))
                           F image a)).
        -- split; [done|]. eapply rewritten_ext; [exact Hi|exact Hrw|].
           intros y x _ _. simpl. apply eq_true_iff_eq.
           rewrite orb_true_iff, andb_true_iff, !Z.ltb_lt. lia.
        -- done.
        -- intros j c u Hj [Hc Hrw'] Hu.
           eapply wp_bind_returns; [apply wp_true_div_check; [lia|done]|].
           intros _ u1 _ Hu1.
           eapply wp_bind_returns; [apply wp_true_div_check; [lia|done]|].
           intros _ u2 _ Hu2. eapply wp_returns_mono.
           ++ apply (wp_setitem_pixel_exact G (Z.to_nat height) (Z.to_nat width));
                [done|lia|lia|done| |done].
              intros HG. destruct (G_bounded HG) as [_ Hback].
              specialize (Hback j width k height). unfold in_uint8.
              repeat constructor; lia.
           ++ intros a' [-> Ha']. split; [done|].
              eapply rewritten_ext; [exact Hi| |].
              ** apply rewritten_paint; [exact Hrw'|].
                 intros y x Hsel. apply andb_true_iff in Hsel as [Hy Hx].
                 apply Nat.eqb_eq in Hy, Hx. subst y x.
                 unfold F, backdrop_pixel. by rewrite !Z2Nat.id by lia.
              ** intros y x _ _. simpl. apply eq_true_iff_eq.
                 rewrite !orb_true_iff, !andb_true_iff, !Nat.eqb_eq, !Z.ltb_lt. lia.
      * intros a [Ha Hrw']. split; [done|].
        eapply rewritten_ext; [exact Hi|exact Hrw'|].
        intros y x _ Hx. simpl. apply eq_true_iff_eq.
        rewrite orb_true_iff, andb_true_iff, Nat.eqb_eq, !Z.ltb_lt. lia.
  - intros a [Ha Hrw]. split; [done|].
    eapply rewritten_ext; [exact Hi|exact Hrw|].
    intros y x Hy _. simpl. apply Z.ltb_lt. lia.
Qed.

End Fills.

Lemma sky_pixel_fits fp height (y : nat) :
  oracle_bounded fp -> Z.of_nat y < height / 3 ->
  map to_uint8 (sky_pixel fp height y) = sky_pixel fp height y.
Proof.
  intros [Hsky _] Hy. apply map_to_uint8_id. unfold sky_pixel, in_uint8.
  specialize (Hsky (Z.of_nat y) (height / 3)). repeat constructor; lia.
Qed.

Lemma backdrop_pixel_fits fp height width (y x : nat) :
  oracle_bounded fp -> Z.of_nat y < height -> Z.of_nat x < width ->
  map to_uint8 (backdrop_pixel fp height width y x) = backdrop_pixel fp height width y x.
Proof.
  intros [_ Hback] Hy Hx. apply map_to_uint8_id. unfold backdrop_pixel, in_uint8.
  specialize (Hback (Z.of_nat x) width (Z.of_nat y) height). repeat constructor; lia.
Qed.

(** A run of [portrait_before_noise], pixel by pixel: the face holds the
    first three draws, the rest the backdrop. *)
Lemma portrait_before_noise_run fp height width s :
  fits height width ->
  exists image s',
    portrait_before_noise fp (height, width) s = (Ok image, s') /\
    good (Z.to_nat height) (Z.to_nat width) image /\
    forall y x : nat,
      Z.of_nat y < height -> Z.of_nat x < width ->
      pixel image y x
      = Some (if face_mask height width y x
              then map (randint_at 180 220 s) [0; 1; 2]%nat
              else map to_uint8 (backdrop_pixel fp height width y x)).
Proof.
  intros Hfit. destruct (Hfit) as [[Hh _] [Hw _]].
  assert (H0 : in_uint8 0) by (unfold in_uint8; lia).
  destruct (run_returns _ _ s
              (wp_np_full_exact False height width 0 s Hfit H0 (clean_False s)))
    as (a0 & s0 & Hrun0 & ->).
  pose proof (draws_nothing_np_full height width 0 s) as Hd0.
  rewrite Hrun0 in Hd0. simpl in Hd0.
  destruct (run_returns _ _ s0
              (wp_portrait_background_exact fp False (no_bound fp) height width _ s0
                 Hh Hw (good_filled _ _ 0 H0) (clean_False s0)))
    as (a1 & s1 & Hrun1 & Ha1 & Hrw).
  pose proof (draws_nothing_portrait_background fp height width
                (filled (Z.to_nat height) (Z.to_nat width) 3 0) s0) as Hd1.
  rewrite Hrun1 in Hd1. simpl in Hd1.
  destruct (run_returns _ _ s1
              (wp_portrait_face_exact False height width a1 s1 Ha1 (clean_False s1)))
    as (a2 & s2 & Hrun2 & Ha2 & ->).
  eexists. exists s2. split; [|split; [exact Ha2|]].
  { unfold portrait_before_noise, np_zeros, bind. rewrite Hrun0, Hrun1. exact Hrun2. }
  intros y x Hy Hx. rewrite pixel_paint, Hrw.
  destruct (pixel_good (Z.to_nat height) (Z.to_nat width)
              (filled (Z.to_nat height) (Z.to_nat width) 3 0) y x)
    as (px & -> & _); [by apply good_filled|lia|lia|].
  simpl. f_equal. destruct (face_mask height width y x); [|done].
  pose proof (same_draws_trans _ _ _ Hd0 Hd1) as Hd.
  by rewrite !(randint_at_same_draws 180 220 s s1).
Qed.

Lemma face_color_range s :
  Forall (fun v => 180 <= v <= 219) (map (randint_at 180 220 s) [0; 1; 2]%nat).
Proof.
  apply Forall_map, Forall_forall. intros k _. simpl.
  pose proof (randint_at_bounds 180 220 s k ltac:(lia)). lia.
Qed.

(** * Runs on small canvases, and on refused ones *)

Example landscape_4x5 :
  outcome (create_landscape_image flat_oracle (4, 5)) (seeded 1)
  = Raise (ValueError CouldNotBroadcast).
Proof. vm_compute. reflexivity. Qed.

(** Two rows, both ground: the noise of row 0 is [-14; -15; 14], so the
    value is [[46; 45; 74]; [86; 85; 114]; [26; 25; 54]], one row per pixel
    on a canvas 3 wide; the texture then adds 5, 4, 3, ... *)
Example landscape_2x3 :
  outcome (create_landscape_image flat_oracle (2, 3)) (seeded 1)
  = Ok {| shape := (2, 3, 3)%nat;
          data := [[[51; 49; 77]; [88; 86; 114]; [25; 23; 51]];
                   [[69; 67; 65]; [106; 104; 102]; [43; 61; 59]]] |}.
Proof. vm_compute. reflexivity. Qed.

(** Radius 0: the face is the centre pixel alone. *)
Example portrait_2x2 :
  outcome (portrait_before_noise flat_oracle (2, 2)) (seeded 1)
  = Ok {| shape := (2, 2, 3)%nat;
          data := [[[150; 130; 110]; [150; 130; 110]];
                   [[150; 130; 110]; [181; 180; 219]]] |}.
Proof. vm_compute. reflexivity. Qed.

Example architecture_24x7 :
  outcome (create_architecture_image (24, 7)) (seeded 1) = Raise (ValueError ZeroStep).
Proof. vm_compute. reflexivity. Qed.

Example nature_24x7 :
  outcome (create_nature_image flat_oracle (24, 7)) (seeded 1)
  = Raise (ValueError LowGeHigh).
Proof. vm_compute. reflexivity. Qed.

Example nature_24x27 :
  outcome (create_nature_image flat_oracle (24, 27)) (seeded 1)
  = Raise (ValueError NotOneDimensional).
Proof. vm_compute. reflexivity. Qed.

Example abstract_6x8 :
  outcome (create_abstract_image flat_oracle (6, 8)) (seeded 1)
  = Raise (ValueError NotOneDimensional).
Proof. vm_compute. reflexivity. Qed.

(** Canvases NumPy refuses: a side that is no 64-bit integer, a size in
    bytes that is none (an empty side is passed over, the others still
    count), a negative side. *)
Example portrait_dimension_too_large :
  outcome (create_portrait_image flat_oracle (0, 2 ^ 63)) (seeded 1)
  = Raise (ValueError DimensionTooLarge).
Proof. vm_compute. reflexivity. Qed.

Example architecture_dimension_too_large :
  outcome (create_architecture_image (12, 2 ^ 63)) (seeded 1)
  = Raise (ValueError DimensionTooLarge).
Proof. vm_compute. reflexivity. Qed.

Example landscape_too_big :
  outcome (create_landscape_image flat_oracle (0, 2 ^ 62)) (seeded 1)
  = Raise (ValueError ArrayTooBig).
Proof. vm_compute. reflexivity. Qed.

Example abstract_too_big :
  outcome (create_abstract_image flat_oracle (2 ^ 32, 2 ^ 32)) (seeded 1)
  = Raise (ValueError ArrayTooBig).
Proof. vm_compute. reflexivity. Qed.

Example nature_negative :
  outcome (create_nature_image flat_oracle (-1, 30)) (seeded 1)
  = Raise (ValueError NegativeDimensions).
Proof. vm_compute. reflexivity. Qed.

(** * Properties of the generators *)

(** C1, at the default sizes.  [create_portrait_image] returns an array of
    shape (960, 720, 3) and [create_architecture_image] one of shape
    (800, 1200, 3), both well formed.  The other three return nothing:
    [create_landscape_image] raises on its first mountain row (a list of
    three rows of 1280 values does not broadcast into a row of 1280 pixels
    of 3 channels), [create_nature_image] and [create_abstract_image] raise
    on [np.random.choice] of a list of colour triples. *)
Theorem C1_default_sizes fp s :
  (exists img, outcome (create_portrait_image fp (960, 720)) s = Ok img /\
               good 960 720 img) /\
  (exists img, outcome (create_architecture_image (800, 1200)) s = Ok img /\
               good 800 1200 img) /\
  outcome (create_landscape_image fp (720, 1280)) s = Raise (ValueError CouldNotBroadcast) /\
  outcome (create_nature_image fp (1080, 1920)) s = Raise (ValueError NotOneDimensional) /\
  outcome (create_abstract_image fp (600, 800)) s = Raise (ValueError NotOneDimensional).
Proof.
  destruct default_sizes_fit as (Hl & Hp & Ha & Hn & Hb).
  split; [|split; [|split; [|split]]].
  - apply (outcome_returns (good (Z.to_nat 960) (Z.to_nat 720))).
    apply wp_portrait_returns; [apply no_bound|done|apply clean_False].
  - apply (outcome_returns (good (Z.to_nat 800) (Z.to_nat 1200))).
    apply wp_architecture_returns; [lia|lia|done|apply clean_False].
  - apply outcome_raises.
    apply wp_landscape_mismatch; [apply no_bound|lia|done|lia|apply clean_False].
  - apply outcome_raises.
    apply (wp_nature_raises fp False 1080 1920); [done|apply clean_False].
  - apply outcome_raises.
    apply wp_abstract_raises; [done|apply clean_False].
Qed.

(** C2.  Along every call of every generator, for every size, no value
    outside [0, 255] is ever cast to [uint8]: the ghost flag, clear at the
    start, is clear at the end, whether the call returns or raises; and
    every channel of a returned image is in [0, 255].  The float
    expressions are taken in their ranges ([oracle_bounded]). *)
Theorem C2_channels_stay_in_range fp name g size s :
  (name, g) ∈ generators fp ->
  oracle_bounded fp ->
  wrapped s = false ->
  wrapped (final_state (g size) s) = false /\
  forall img, outcome (g size) s = Ok img ->
    Forall in_uint8 (concat (concat (data img))).
Proof.
  intros Hin Hfp Hs.
  assert (Hwp : wp (g size) s (settled (oracle_bounded fp))).
  { assert (Hc : clean (oracle_bounded fp) s) by (by intros _).
    pattern g. eapply generators_cases; [exact Hin|..].
    - by apply landscape_settled.
    - by apply portrait_settled.
    - by apply architecture_settled.
    - by apply nature_settled.
    - by apply abstract_settled. }
  destruct Hwp as [Hclean Hgood]. split; [by apply Hclean|].
  intros img Himg. destruct (Hgood img Himg) as (h & w & Hg).
  by apply (good_items h w).
Qed.

Lemma flat_oracle_bounded : oracle_bounded flat_oracle.
Proof. split; intros; simpl; lia. Qed.

Lemma C2_channels_stay_in_range_witness :
  wrapped (final_state (create_portrait_image flat_oracle (8, 6)) (seeded 5)) = false /\
  forall img, outcome (create_portrait_image flat_oracle (8, 6)) (seeded 5) = Ok img ->
    Forall in_uint8 (concat (concat (data img))).
Proof.
  apply (C2_channels_stay_in_range flat_oracle "portrait.jpg"
           (create_portrait_image flat_oracle) (8, 6) (seeded 5)).
  - unfold generators. apply elem_of_cons. right. apply elem_of_cons. by left.
  - exact flat_oracle_bounded.
  - reflexivity.
Defined.

(** C3, where the claim fails: with a width under 8 the stripe width is 0
    and [range(0, width, 0)] raises, nothing clamps the step. *)
Lemma C3_zero_step_raises :
  outcome (create_architecture_image (800, 4)) (seeded 0) = Raise (ValueError ZeroStep).
Proof. vm_compute. reflexivity. Qed.

(** C3, amended.  For every size and every generator, no call raises
    [ZeroDivisionError] or [IndexError].  No loop bound is clamped, though:
    on a canvas that fits (both sides under 2^29)
    [create_architecture_image] raises [ValueError] for a zero range step
    when the width is under 8 or the height under 12, and returns
    otherwise. *)
Theorem C3_no_division_or_index_error fp name g height width s :
  (name, g) ∈ generators fp ->
  outcome (g (height, width)) s <> Raise ZeroDivisionError /\
  outcome (g (height, width)) s <> Raise IndexError /\
  (fits height width ->
   verdict_of (outcome (create_architecture_image (height, width)) s)
   = if (width <? 8) || (height <? 12) then Fails (ValueError ZeroStep) else Returns).
Proof.
  intros Hin. split; [|split; [|apply architecture_outcome]].
  - intros Hr. by destruct (generators_raise_value_errors _ _ _ _ _ _ _ Hin Hr).
  - intros Hr. by destruct (generators_raise_value_errors _ _ _ _ _ _ _ Hin Hr).
Qed.

Lemma C3_no_division_or_index_error_witness :
  outcome (create_architecture_image (24, 7)) (seeded 5) <> Raise ZeroDivisionError /\
  outcome (create_architecture_image (24, 7)) (seeded 5) <> Raise IndexError /\
  verdict_of (outcome (create_architecture_image (24, 7)) (seeded 5))
  = Fails (ValueError ZeroStep).
Proof.
  destruct (C3_no_division_or_index_error flat_oracle "architecture.jpg"
              create_architecture_image 24 7 (seeded 5)) as (H1 & H2 & H3).
  - unfold generators. do 2 (apply elem_of_cons; right). apply elem_of_cons. by left.
  - split; [exact H1|]. split; [exact H2|]. apply H3. unfold fits. lia.
Defined.

(** C4.  For every height the three loops of [create_landscape_image] range
    over [0, height//3), [height//3, height//3 + height//4) and
    [height//3 + height//4, height): contiguous, disjoint, together the
    rows [0, height), the row counts adding up to the height.  At height 720
    they are [0, 240), [240, 420) and [420, 720).  But at (720, 1280) the
    call returns no buffer, it raises on row 240, the first mountain row. *)
Theorem C4_landscape_bands fp s height :
  0 <= height ->
  (exists sky mountain ground,
     sky_rows height = Ok sky /\
     mountain_rows height = Ok mountain /\
     ground_rows height = Ok ground /\
     sky = seqZ 0 (height / 3) /\
     mountain = seqZ (height / 3) (height / 4) /\
     ground = seqZ (height / 3 + height / 4) (height - (height / 3 + height / 4)) /\
     sky ++ mountain ++ ground = seqZ 0 height /\
     Z.of_nat (length sky) + Z.of_nat (length mountain) + Z.of_nat (length ground) = height) /\
  sky_rows 720 = Ok (seqZ 0 240) /\
  mountain_rows 720 = Ok (seqZ 240 180) /\
  ground_rows 720 = Ok (seqZ 420 300) /\
  outcome (create_landscape_image fp (720, 1280)) s = Raise (ValueError CouldNotBroadcast).
Proof.
  intros Hh. pose proof (band_bounds height Hh) as (H3 & H4 & Hsum).
  split; [|split; [|split; [|split]]].
  - do 3 eexists. unfold sky_rows, mountain_rows, ground_rows.
    rewrite !py_range_unit.
    replace (height / 3 - 0) with (height / 3) by lia.
    replace (height / 3 + height / 4 - height / 3) with (height / 4) by lia.
    repeat (split; [reflexivity|]). split.
    + rewrite <- (seqZ_app (height / 3)) by lia.
      rewrite <- (seqZ_app 0) by lia. f_equal. lia.
    + rewrite !length_seqZ. lia.
  - unfold sky_rows. by rewrite py_range_unit.
  - unfold mountain_rows. by rewrite py_range_unit.
  - unfold ground_rows. by rewrite py_range_unit.
  - apply outcome_raises.
    apply wp_landscape_mismatch;
      [apply no_bound|lia|apply default_sizes_fit|lia|apply clean_False].
Qed.

Lemma C4_landscape_bands_witness :
  (exists sky mountain ground,
     sky_rows 720 = Ok sky /\
     mountain_rows 720 = Ok mountain /\
     ground_rows 720 = Ok ground /\
     sky = seqZ 0 (720 / 3) /\
     mountain = seqZ (720 / 3) (720 / 4) /\
     ground = seqZ (720 / 3 + 720 / 4) (720 - (720 / 3 + 720 / 4)) /\
     sky ++ mountain ++ ground = seqZ 0 720 /\
     Z.of_nat (length sky) + Z.of_nat (length mountain) + Z.of_nat (length ground) = 720) /\
  sky_rows 720 = Ok (seqZ 0 240) /\
  mountain_rows 720 = Ok (seqZ 240 180) /\
  ground_rows 720 = Ok (seqZ 420 300) /\
  outcome (create_landscape_image flat_oracle (720, 1280)) (seeded 5)
  = Raise (ValueError CouldNotBroadcast).
Proof. apply (C4_landscape_bands flat_oracle (seeded 5) 720). lia. Defined.

(** C5.  [create_portrait_image] is [portrait_before_noise] followed by the
    noise pass.  On a canvas that fits (both sides under 2^29),
    [portrait_before_noise] returns an image in which every pixel [(y, x)]
    with
    [(x - width//2)**2 + (y - height//2)**2 <= (min(width, height)//4)**2]
    holds exactly the one face colour, on all three channels: the three
    values [np.random.randint(180, 220, 3)] draws, the first three draws of
    the call, each in 180..219. *)
Theorem C5_face_before_noise fp height width s :
  fits height width ->
  create_portrait_image fp (height, width)
  = bind (portrait_before_noise fp (height, width)) (add_noise (-15) 15 height width) /\
  exists img,
    outcome (portrait_before_noise fp (height, width)) s = Ok img /\
    let face_color :=
      [randint_at 180 220 s 0; randint_at 180 220 s 1; randint_at 180 220 s 2] in
    Forall (fun v => 180 <= v <= 219) face_color /\
    forall y x : nat,
      Z.of_nat y < height -> Z.of_nat x < width ->
      (Z.of_nat x - width / 2) ^ 2 + (Z.of_nat y - height / 2) ^ 2
        <= (Z.min width height / 4) ^ 2 ->
      pixel img y x = Some face_color.
Proof.
  intros Hfit. split; [reflexivity|].
  destruct (portrait_before_noise_run fp height width s Hfit)
    as (img & s' & Hrun & Hgood & Hpx).
  exists img. split; [unfold outcome; by rewrite Hrun|]. split.
  - pose proof (randint_at_bounds 180 220 s 0 ltac:(lia)).
    pose proof (randint_at_bounds 180 220 s 1 ltac:(lia)).
    pose proof (randint_at_bounds 180 220 s 2 ltac:(lia)).
    do 3 (constructor; [lia|]). constructor.
  - intros y x Hy Hx Hin. rewrite Hpx by done.
    unfold face_mask, circle_mask. by rewrite (proj2 (Z.leb_le _ _) Hin).
Qed.

Lemma C5_face_before_noise_witness :
  create_portrait_image flat_oracle (8, 6)
  = bind (portrait_before_noise flat_oracle (8, 6)) (add_noise (-15) 15 8 6) /\
  exists img,
    outcome (portrait_before_noise flat_oracle (8, 6)) (seeded 5) = Ok img /\
    let face_color :=
      [randint_at 180 220 (seeded 5) 0; randint_at 180 220 (seeded 5) 1;
       randint_at 180 220 (seeded 5) 2] in
    Forall (fun v => 180 <= v <= 219) face_color /\
    forall y x : nat,
      Z.of_nat y < 8 -> Z.of_nat x < 6 ->
      (Z.of_nat x - 6 / 2) ^ 2 + (Z.of_nat y - 8 / 2) ^ 2 <= (Z.min 6 8 / 4) ^ 2 ->
      pixel img y x = Some face_color.
Proof. apply (C5_face_before_noise flat_oracle 8 6 (seeded 5)). unfold fits. lia. Defined.

(** C6, where the claim fails: [np.random.randint(low, high, ...)] draws
    from the half-open interval, so the landscape texture never holds 10. *)
Lemma C6_upper_bound_never_drawn :
  ~ exists s noise,
      outcome (randint_3d (-10) 10 720 1280 3) s = Ok noise /\ item noise 0 0 0 = 10.
Proof.
  intros (s & noise & Hout & Hitem).
  destruct (randint_3d_item (-10) 10 720 1280 s 0 0 0) as (noise' & Hrun & _ & Hi);
    [lia|unfold intp_max; lia|lia..|].
  unfold outcome in Hout. rewrite Hrun in Hout. simpl in Hout.
  injection Hout as <-. rewrite Hi in Hitem. unfold randint_at in Hitem.
  pose proof (Z.mod_pos_bound (raw s (pos s + ((0 * Z.to_nat 1280 + 0) * 3 + 0))%nat)
                (10 - -10)).
  lia.
Qed.

(** C6, amended.  The generators end in [add_noise] with the bounds
    (-10, 10) for the landscape, (-15, 15) for the portrait and (-8, 8) for
    the architecture image.  On an image of the given size, the noise array
    of its 64-bit integers being within NumPy's size limit, the pass returns
    an image in which every channel [(y, x, c)] is the old value plus a draw
    [d], clipped into [0, 255]; [d] is draw number [(y * width + x) * 3 + c]
    of the stream, one per channel per pixel, and lies in
    [low, high - 1]: the upper bound itself is never drawn.  Every
    value of [low, high - 1], both ends included, is drawn for a suitable
    state of the generator. *)
Theorem C6_noise_pass fp low high height width image s (y x c : nat) :
  low < high -> 0 <= height -> 0 <= width ->
  8 * (height * width * 3) <= intp_max ->
  good (Z.to_nat height) (Z.to_nat width) image ->
  (y < Z.to_nat height)%nat -> (x < Z.to_nat width)%nat -> (c < 3)%nat ->
  (create_landscape_image fp (height, width)
   = (image <- np_zeros height width 3 ;;
      image <- landscape_sky fp height image ;;
      image <- landscape_mountains height width image ;;
      image <- landscape_ground height width image ;;
      add_noise (-10) 10 height width image)) /\
  (create_portrait_image fp (height, width)
   = (image <- portrait_before_noise fp (height, width) ;;
      add_noise (-15) 15 height width image)) /\
  (create_architecture_image (height, width)
   = (image <- np_full height width 3 120 ;;
      image <- architecture_stripes height width image ;;
      image <- architecture_floors height width image ;;
      image <- architecture_windows height width image ;;
      add_noise (-8) 8 height width image)) /\
  exists image' d,
    outcome (add_noise low high height width image) s = Ok image' /\
    good (Z.to_nat height) (Z.to_nat width) image' /\
    d = randint_at low high s ((y * Z.to_nat width + x) * 3 + c) /\
    low <= d <= high - 1 /\
    item image' y x c = np_clip 0 255 (item image y x c + d) /\
    forall v, low <= v <= high - 1 ->
      exists s', forall k, randint_at low high s' k = v.
Proof.
  intros Hlt Hh Hw Hsize Hi Hy Hx Hc. do 3 (split; [reflexivity|]).
  destruct (add_noise_item low high height width image s y x c) as (image' & Hout & Hg & Hit);
    try done.
  exists image', (randint_at low high s ((y * Z.to_nat width + x) * 3 + c)).
  split; [done|]. split; [done|]. split; [done|]. split; [|split; [done|]].
  - unfold randint_at.
    pose proof (Z.mod_pos_bound (raw s (pos s + ((y * Z.to_nat width + x) * 3 + c))%nat)
                  (high - low)).
    lia.
  - intros v Hv. exists {| raw := fun _ => v - low; pos := 0; wrapped := false |}.
    intros k. unfold randint_at. simpl. rewrite Z.mod_small by lia. lia.
Qed.

Lemma C6_noise_pass_witness :
  exists image' d,
    outcome (add_noise (-15) 15 2 2 (filled 2 2 3 100)) (seeded 5) = Ok image' /\
    good 2 2 image' /\
    d = randint_at (-15) 15 (seeded 5) ((1 * 2 + 0) * 3 + 2) /\
    -15 <= d <= 14 /\
    item image' 1 0 2 = np_clip 0 255 (item (filled 2 2 3 100) 1 0 2 + d).
Proof.
  destruct (C6_noise_pass flat_oracle (-15) 15 2 2 (filled 2 2 3 100) (seeded 5) 1 0 2)
    as (_ & _ & _ & image' & d & H1 & H2 & H3 & H4 & H5 & _).
  - lia.
  - lia.
  - lia.
  - unfold intp_max. lia.
  - apply (good_filled 2 2). unfold in_uint8. lia.
  - simpl. lia.
  - simpl. lia.
  - lia.
  - exists image', d.
    split; [exact H1|]. split; [exact H2|]. split; [exact H3|]. split; [lia|exact H5].
Defined.




(** C8.  [create_abstract_image] draws no shape at all: at (600, 800), as
    wherever the loop is reached, the first of the 15 iterations raises in
    [np.random.choice(colors)], [colors] being a list of triples.  And an
    iteration that picked ['triangle'], the third entry of [shapes], would
    leave the canvas as it is: there is no branch for it. *)
Theorem C8_abstract_draws_nothing fp s :
  outcome (create_abstract_image fp (600, 800)) s = Raise (ValueError NotOneDimensional) /\
  (forall image t,
     outcome (abstract_shape 600 800 image) t = Raise (ValueError NotOneDimensional)) /\
  In "triangle"%string shapes /\
  (forall color image t,
     abstract_draw 600 800 "triangle" color image t = (Ok image, t)).
Proof.
  split; [|split; [|split]].
  - apply outcome_raises.
    apply wp_abstract_raises; [apply default_sizes_fit|apply clean_False].
  - intros image t. apply outcome_raises. apply wp_abstract_shape, clean_False.
  - simpl. auto.
  - reflexivity.
Qed.






(** * The driver *)

Lemma path_exists_print line w path : path_exists (print line w) path = path_exists w path.
Proof. done. Qed.

Lemma path_exists_imwrite_ne q image w path :
  q <> path -> path_exists (imwrite q image w) path = path_exists w path.
Proof.
  intros Hne. unfold path_exists, imwrite. simpl. f_equal.
  apply bool_decide_ext. by rewrite lookup_insert_ne.
Qed.

Lemma path_exists_file w path image : files w !! path = Some image -> path_exists w path = true.
Proof.
  intros H. unfold path_exists. apply orb_true_iff. right.
  apply bool_decide_eq_true. eauto.
Qed.

Lemma path_join_inj a b b' : path_join a b = path_join a b' -> b = b'.
Proof.
  unfold path_join. intros H. apply (inj (String.app a)) in H.
  by apply (inj (String.app "/")) in H.
Qed.

Section Driver_facts.

Variable blur : ndarray -> ndarray.

Lemma main_loop_skip dir filename g rest w s :
  path_exists w (path_join dir filename) = true ->
  main_loop blur dir ((filename, g) :: rest) w s
  = main_loop blur dir rest (print ("  " +:+ filename +:+ " already exists, skipping...") w) s.
Proof. intros H. cbn [main_loop]. cbv zeta. by rewrite H. Qed.

Lemma main_loop_raise dir filename (g : M ndarray) rest w s e s' :
  path_exists w (path_join dir filename) = false -> g s = (Raise e, s') ->
  main_loop blur dir ((filename, g) :: rest) w s
  = {| raised := Some (GeneratorError e);
       world := print ("  Creating " +:+ filename +:+ "...") w;
       rng := s' |}.
Proof. intros H Hg. cbn [main_loop]. cbv zeta. by rewrite H, Hg. Qed.

Lemma main_loop_write dir filename (g : M ndarray) rest w s image s' :
  path_exists w (path_join dir filename) = false -> g s = (Ok image, s') ->
  main_loop blur dir ((filename, g) :: rest) w s
  = main_loop blur dir rest
      (print (saved_line (path_join dir filename) (blur image))
         (imwrite (path_join dir filename) (blur image)
            (print ("  Creating " +:+ filename +:+ "...") w))) s'.
Proof. intros H Hg. cbn [main_loop]. cbv zeta. by rewrite H, Hg. Qed.

(** A file that is there stays as it is, whatever the table. *)
Lemma main_loop_keeps_files dir entries w s path image :
  files w !! path = Some image ->
  files (world (main_loop blur dir entries w s)) !! path = Some image.
Proof.
  revert w s. induction entries as [|[filename g] rest IH]; intros w s Hf; [done|].
  destruct (path_exists w (path_join dir filename)) eqn:Hex.
  - rewrite main_loop_skip by done. by apply IH.
  - destruct (g s) as [[img|e] s'] eqn:Hg.
    + rewrite (main_loop_write _ _ _ _ _ _ _ _ Hex Hg). apply IH. simpl.
      rewrite lookup_insert_ne; [done|]. intros <-.
      by rewrite (path_exists_file _ _ _ Hf) in Hex.
    + by rewrite (main_loop_raise _ _ _ _ _ _ _ _ Hex Hg).
Qed.

(** A file that appears is the file of a call of the table, and was not
    there. *)
Lemma main_loop_creates_only dir entries w s path :
  files (world (main_loop blur dir entries w s)) !! path <> files w !! path ->
  path_exists w path = false /\ exists filename, filename ∈ entries.*1 /\ path = path_join dir filename.
Proof.
  revert w s. induction entries as [|[filename g] rest IH]; intros w s Hne; [done|].
  destruct (path_exists w (path_join dir filename)) eqn:Hex.
  - rewrite main_loop_skip in Hne by done.
    destruct (IH _ _ Hne) as (H1 & f & Hf & ->). split; [done|].
    exists f. split; [|done]. simpl. by right.
  - destruct (g s) as [[img|e] s'] eqn:Hg.
    + rewrite (main_loop_write _ _ _ _ _ _ _ _ Hex Hg) in Hne.
      destruct (decide (path = path_join dir filename)) as [->|Hp].
      { split; [done|]. exists filename. split; [|done]. simpl. by left. }
      rewrite <- (lookup_insert_ne (files w) (path_join dir filename) path (blur img))
        in Hne by done.
      apply IH in Hne as (H1 & f & Hf & ->).
      rewrite path_exists_print, path_exists_imwrite_ne, path_exists_print in H1 by done.
      split; [done|]. exists f. split; [|done]. simpl. by right.
    + by rewrite (main_loop_raise _ _ _ _ _ _ _ _ Hex Hg) in Hne.
Qed.

(** The exception a table ends in depends only on which files exist at the
    start and on what each call does. *)
Lemma main_loop_raised dir entries verdicts w0 :
  Forall2 (fun (en : string * M ndarray) (ve : string * verdict) =>
             en.1 = ve.1 /\ forall s, verdict_of (outcome en.2 s) = ve.2)
          entries verdicts ->
  NoDup entries.*1 ->
  forall w s,
    (forall f, f ∈ entries.*1 ->
       path_exists w (path_join dir f) = path_exists w0 (path_join dir f)) ->
    raised (main_loop blur dir entries w s) = first_failure dir w0 verdicts.
Proof.
  induction 1 as [|[f g] [f' v] entries verdicts [Hf Hv] _ IH]; intros Hnd w s Hsame;
    [done|].
  simpl in Hf, Hv. subst f'. simpl in Hnd. apply NoDup_cons in Hnd as [Hnotin Hnd].
  cbn [first_failure]. rewrite <- (Hsame f) by (simpl; left).
  destruct (path_exists w (path_join dir f)) eqn:Hex.
  - rewrite main_loop_skip by done. apply IH; [done|].
    intros f' Hf'. rewrite path_exists_print. apply Hsame. simpl. by right.
  - specialize (Hv s). unfold outcome in Hv.
    destruct (g s) as [[img|e] s'] eqn:Hg; simpl in Hv; subst v.
    + rewrite (main_loop_write _ _ _ _ _ _ _ _ Hex Hg). apply IH; [done|].
      intros f' Hf'. rewrite path_exists_print, path_exists_imwrite_ne, path_exists_print.
      * apply Hsame. simpl. by right.
      * intros Heq. apply path_join_inj in Heq. by subst f'.
    + by rewrite (main_loop_raise _ _ _ _ _ _ _ _ Hex Hg).
Qed.

Lemma default_calls_verdicts fp :
  Forall2 (fun (en : string * M ndarray) (ve : string * verdict) =>
             en.1 = ve.1 /\ forall s, verdict_of (outcome en.2 s) = ve.2)
          (default_calls fp) default_verdicts.
Proof.
  destruct default_sizes_fit as (Hl & Hp & Ha & Hn & Hb).
  unfold default_calls, default_verdicts.
  apply List.Forall2_cons.
  { cbn [fst snd]. split; [reflexivity|]. intros s.
    eapply verdict_raises, wp_landscape_mismatch;
      [apply no_bound|lia|exact Hl|lia|apply clean_False]. }
  apply List.Forall2_cons.
  { cbn [fst snd]. split; [reflexivity|]. intros s.
    eapply verdict_returns, wp_portrait_returns; [apply no_bound|exact Hp|apply clean_False]. }
  apply List.Forall2_cons.
  { cbn [fst snd]. split; [reflexivity|]. intros s.
    eapply verdict_returns, wp_architecture_returns; [lia|lia|exact Ha|apply clean_False]. }
  apply List.Forall2_cons.
  { cbn [fst snd]. split; [reflexivity|]. intros s.
    eapply verdict_raises, (wp_nature_raises fp False 1080 1920);
      [exact Hn|apply clean_False]. }
  apply List.Forall2_cons.
  { cbn [fst snd]. split; [reflexivity|]. intros s.
    eapply verdict_raises, wp_abstract_raises; [exact Hb|apply clean_False]. }
  apply List.Forall2_nil.
Qed.

Lemma default_calls_nodup fp : NoDup (default_calls fp).*1.
Proof.
  unfold default_calls. cbn [fmap list_fmap fst].
  apply (bool_decide_unpack _). by vm_compute.
Qed.

Lemma path_exists_started w f :
  path_exists (started w) (path_join "samples" f) = path_exists w (path_join "samples" f).
Proof.
  unfold started, path_exists. simpl. f_equal. apply bool_decide_ext.
  rewrite elem_of_union, elem_of_singleton. split; [|auto].
  intros [Heq|?]; [|done]. exfalso. unfold path_join in Heq.
  change "samples"%string with ("samples" +:+ "")%string in Heq at 2.
  by apply (inj (String.app "samples")) in Heq.
Qed.

Lemma main_started fp w s :
  files w !! "samples"%string = None ->
  main blur fp w s
  = let r := main_loop blur "samples" (default_calls fp) (started w) s in
    match raised r with
    | Some e => r
    | None =>
        {| raised := None;
           world := print "Generated images are available in the 'samples' directory."
                      (print (newline +:+ "Sample generation complete!") (world r));
           rng := rng r |}
    end.
Proof.
  intros Hs. unfold main, makedirs_exist_ok.
  rewrite bool_decide_eq_false_2; [done|]. rewrite Hs. by intros [? ?].
Qed.

Lemma main_files fp w s :
  files w !! "samples"%string = None ->
  files (world (main blur fp w s))
  = files (world (main_loop blur "samples" (default_calls fp) (started w) s)).
Proof.
  intros Hs. rewrite main_started by done. cbv zeta.
  by destruct (raised (main_loop blur "samples" (default_calls fp) (started w) s)).
Qed.

End Driver_facts.

(** * Further properties: the driver *)

(** X1.  When "samples" is not a regular file and all five samples exist,
    [main] returns without calling a generator: no file changes, no random
    number is drawn, the directory is (still) there and eight lines are
    printed, one "already exists" line per sample. *)
Theorem X1_main_skips_existing_samples blur fp w s :
  files w !! "samples"%string = None ->
  Forall (fun path => path_exists w path = true) targets ->
  main blur fp w s
  = {| raised := None;
       world := {| dirs := {["samples"%string]} ∪ dirs w;
                   files := files w;
                   stdout := stdout w ++
                     ["Generating sample images...";
                      "  landscape.jpg already exists, skipping...";
                      "  portrait.jpg already exists, skipping...";
                      "  architecture.jpg already exists, skipping...";
                      "  nature.jpg already exists, skipping...";
                      "  abstract.jpg already exists, skipping...";
                      newline +:+ "Sample generation complete!";
                      "Generated images are available in the 'samples' directory."]%string |};
       rng := s |}.
Proof.
  intros Hs Hall. unfold targets in Hall.
  repeat (apply Forall_cons in Hall as [? Hall]).
  rewrite main_started by done. unfold default_calls.
  do 5 (rewrite main_loop_skip
          by (rewrite ?path_exists_print, path_exists_started; assumption)).
  cbn [main_loop raised world rng]. cbv zeta. cbn [raised world rng].
  unfold print, started, print. cbn [dirs files stdout].
  by rewrite <- !app_assoc.
Qed.

Lemma X1_main_skips_existing_samples_witness :
  main id flat_oracle complete_world (seeded 1)
  = {| raised := None;
       world := {| dirs := {["samples"%string]} ∪ dirs complete_world;
                   files := files complete_world;
                   stdout := stdout complete_world ++
                     ["Generating sample images...";
                      "  landscape.jpg already exists, skipping...";
                      "  portrait.jpg already exists, skipping...";
                      "  architecture.jpg already exists, skipping...";
                      "  nature.jpg already exists, skipping...";
                      "  abstract.jpg already exists, skipping...";
                      newline +:+ "Sample generation complete!";
                      "Generated images are available in the 'samples' directory."]%string |};
       rng := seeded 1 |}.
Proof.
  apply (X1_main_skips_existing_samples id flat_oracle complete_world (seeded 1)).
  - by vm_compute.
  - unfold targets. repeat (apply List.Forall_cons; [by vm_compute|]). apply List.Forall_nil.
Defined.

Lemma path_exists_started_mono w path :
  path_exists (started w) path = false -> path_exists w path = false.
Proof.
  unfold started, path_exists. simpl. rewrite !orb_false_iff.
  intros [Hd Hf]. split; [|done].
  apply bool_decide_eq_false. apply bool_decide_eq_false in Hd. set_solver.
Qed.

Lemma default_calls_targets fp dirname filename :
  dirname = "samples"%string ->
  filename ∈ (default_calls fp).*1 -> path_join dirname filename ∈ targets.
Proof.
  intros ->. unfold default_calls. cbn [fmap list_fmap fst]. unfold targets.
  intros Hin. repeat (apply elem_of_cons in Hin as [->|Hin]; [set_solver|]).
  by apply elem_of_nil in Hin.
Qed.

(** X2.  [main] never changes or removes a file that exists, whatever the
    world and however the run ends; a path whose content differs after the
    run is one of the five samples and did not exist before. *)
Theorem X2_main_only_adds_samples blur fp w s path :
  (forall image, files w !! path = Some image ->
     files (world (main blur fp w s)) !! path = Some image) /\
  (files (world (main blur fp w s)) !! path <> files w !! path ->
     path ∈ targets /\ path_exists w path = false).
Proof.
  destruct (files w !! "samples"%string) as [dir|] eqn:Hs.
  { assert (Hw : world (main blur fp w s) = w).
    { unfold main, makedirs_exist_ok. rewrite bool_decide_eq_true_2; [done|].
      rewrite Hs. eauto. }
    rewrite Hw. split; [done|]. by intros []. }
  rewrite main_files by done. split.
  - intros image Hf. by apply main_loop_keeps_files.
  - intros Hne. change (files w) with (files (started w)) in Hne.
    apply main_loop_creates_only in Hne as (Hex & f & Hf & ->).
    split; [by apply (default_calls_targets fp)|].
    by apply path_exists_started_mono.
Qed.

Lemma X2_main_only_adds_samples_witness :
  files (world (main id flat_oracle patched_world (seeded 1))) !! "samples/nature.jpg"%string
  = Some (filled 1 1 3 0).
Proof.
  apply (X2_main_only_adds_samples id flat_oracle patched_world (seeded 1)
           "samples/nature.jpg").
  by vm_compute.
Defined.

(** X3.  When "samples" is not a regular file, how [main] ends depends only
    on which samples exist: it raises the landscape generator's [ValueError]
    when landscape.jpg is missing; else the nature generator's when
    nature.jpg is missing; else the abstract generator's when abstract.jpg
    is missing; it returns only when these three exist. *)
Theorem X3_main_outcome blur fp w s :
  files w !! "samples"%string = None ->
  raised (main blur fp w s)
  = if negb (path_exists w "samples/landscape.jpg") then
      Some (GeneratorError (ValueError CouldNotBroadcast))
    else if negb (path_exists w "samples/nature.jpg") then
      Some (GeneratorError (ValueError NotOneDimensional))
    else if negb (path_exists w "samples/abstract.jpg") then
      Some (GeneratorError (ValueError NotOneDimensional))
    else None.
Proof.
  intros Hs. rewrite main_started by done. cbv zeta.
  assert (Hr : raised (main_loop blur "samples" (default_calls fp) (started w) s)
               = first_failure "samples" w default_verdicts).
  { apply main_loop_raised.
    - apply default_calls_verdicts.
    - apply default_calls_nodup.
    - intros f _. apply path_exists_started. }
  destruct (raised (main_loop blur "samples" (default_calls fp) (started w) s)) as [e|] eqn:Hraised;
    [rewrite Hraised|cbn [raised]]; rewrite Hr; clear;
    unfold default_verdicts; cbn [first_failure];
    change (path_join "samples" "landscape.jpg") with "samples/landscape.jpg"%string;
    change (path_join "samples" "portrait.jpg") with "samples/portrait.jpg"%string;
    change (path_join "samples" "architecture.jpg") with "samples/architecture.jpg"%string;
    change (path_join "samples" "nature.jpg") with "samples/nature.jpg"%string;
    change (path_join "samples" "abstract.jpg") with "samples/abstract.jpg"%string;
    destruct (path_exists w "samples/landscape.jpg"),
             (path_exists w "samples/portrait.jpg"),
             (path_exists w "samples/architecture.jpg"),
             (path_exists w "samples/nature.jpg"),
             (path_exists w "samples/abstract.jpg"); reflexivity.
Qed.

Lemma X3_main_outcome_witness :
  raised (main id flat_oracle patched_world (seeded 1))
  = if negb (path_exists patched_world "samples/landscape.jpg") then
      Some (GeneratorError (ValueError CouldNotBroadcast))
    else if negb (path_exists patched_world "samples/nature.jpg") then
      Some (GeneratorError (ValueError NotOneDimensional))
    else if negb (path_exists patched_world "samples/abstract.jpg") then
      Some (GeneratorError (ValueError NotOneDimensional))
    else None.
Proof.
  apply (X3_main_outcome id flat_oracle patched_world (seeded 1)). by vm_compute.
Defined.

(** X4.  When landscape.jpg is missing (and "samples" is not a regular
    file), as on a first run, [main] ends in the landscape generator's
    [ValueError] before anything is written: the files are those it started
    with, and it has printed its first line and "Creating landscape.jpg". *)
Theorem X4_main_stops_at_landscape blur fp w s :
  files w !! "samples"%string = None ->
  path_exists w "samples/landscape.jpg" = false ->
  exists s',
    main blur fp w s
    = {| raised := Some (GeneratorError (ValueError CouldNotBroadcast));
         world := {| dirs := {["samples"%string]} ∪ dirs w;
                     files := files w;
                     stdout := stdout w ++
                       ["Generating sample images...";
                        "  Creating landscape.jpg..."]%string |};
         rng := s' |}.
Proof.
  intros Hs Hex.
  destruct (run_raises (ValueError CouldNotBroadcast)
              (create_landscape_image fp (720, 1280)) s) as [s' Hg].
  { apply wp_landscape_mismatch;
      [apply no_bound|lia|apply default_sizes_fit|lia|apply clean_False]. }
  exists s'. rewrite main_started by done. unfold default_calls.
  rewrite (main_loop_raise blur "samples" "landscape.jpg" _ _ (started w) s
             (ValueError CouldNotBroadcast) s');
    [|by rewrite path_exists_started|exact Hg].
  cbv zeta. cbn [raised]. unfold print, started, print. cbn [dirs files stdout].
  by rewrite <- !app_assoc.
Qed.

Lemma X4_main_stops_at_landscape_witness :
  exists s',
    main id flat_oracle fresh_world (seeded 1)
    = {| raised := Some (GeneratorError (ValueError CouldNotBroadcast));
         world := {| dirs := {["samples"%string]} ∪ dirs fresh_world;
                     files := files fresh_world;
                     stdout := stdout fresh_world ++
                       ["Generating sample images...";
                        "  Creating landscape.jpg..."]%string |};
         rng := s' |}.
Proof.
  apply (X4_main_stops_at_landscape id flat_oracle fresh_world (seeded 1)); by vm_compute.
Defined.

(** X5.  When landscape.jpg exists (and "samples" is not a regular file),
    a missing portrait.jpg is written, holding the blur of a well-formed
    image of shape (960, 720, 3), and a missing architecture.jpg is written,
    holding the blur of a well-formed image of shape (800, 1200, 3) —
    whether or not the run later ends in an exception. *)
Theorem X5_main_saves_portrait_and_architecture blur fp w s :
  files w !! "samples"%string = None ->
  path_exists w "samples/landscape.jpg" = true ->
  (path_exists w "samples/portrait.jpg" = false ->
   exists image,
     good 960 720 image /\
     files (world (main blur fp w s)) !! "samples/portrait.jpg"%string = Some (blur image)) /\
  (path_exists w "samples/architecture.jpg" = false ->
   exists image,
     good 800 1200 image /\
     files (world (main blur fp w s)) !! "samples/architecture.jpg"%string
     = Some (blur image)).
Proof.
  intros Hs Hland. rewrite main_files by done. unfold default_calls.
  rewrite main_loop_skip by (by rewrite path_exists_started).
  set (w1 := print _ (started w)).
  assert (Hw1 : forall f, path_exists w1 (path_join "samples" f)
                          = path_exists w (path_join "samples" f)).
  { intros f. unfold w1. by rewrite path_exists_print, path_exists_started. }
  assert (Harch : forall w' t,
            path_exists w' (path_join "samples" "architecture.jpg") = false ->
            exists image,
              good 800 1200 image /\
              files (world (main_loop blur "samples"
                 [("architecture.jpg"%string, create_architecture_image (800, 1200));
                  ("nature.jpg"%string, create_nature_image fp (1080, 1920));
                  ("abstract.jpg"%string, create_abstract_image fp (600, 800))] w' t))
              !! "samples/architecture.jpg"%string = Some (blur image)).
  { intros w' t Hex.
    destruct (run_returns (good (Z.to_nat 800) (Z.to_nat 1200))
                (create_architecture_image (800, 1200)) t) as (img & t' & Hg & Hgood).
    { apply wp_architecture_returns; [lia|lia|apply default_sizes_fit|apply clean_False]. }
    exists img. split; [exact Hgood|].
    rewrite (main_loop_write blur "samples" "architecture.jpg" _ _ w' t img t' Hex Hg).
    apply main_loop_keeps_files. unfold print, imwrite. cbn [files].
    apply lookup_insert_eq. }
  split.
  - intros Hex.
    destruct (run_returns (good (Z.to_nat 960) (Z.to_nat 720))
                (create_portrait_image fp (960, 720)) s) as (img & s' & Hg & Hgood).
    { apply wp_portrait_returns; [apply no_bound|apply default_sizes_fit|apply clean_False]. }
    exists img. split; [exact Hgood|].
    rewrite (main_loop_write blur "samples" "portrait.jpg" _ _ w1 s img s');
      [|by rewrite Hw1|exact Hg].
    apply main_loop_keeps_files. unfold print, imwrite. cbn [files].
    apply lookup_insert_eq.
  - intros Hex. destruct (path_exists w "samples/portrait.jpg") eqn:Hport.
    + rewrite main_loop_skip by (by rewrite Hw1).
      apply Harch. by rewrite path_exists_print, Hw1.
    + destruct (run_returns (good (Z.to_nat 960) (Z.to_nat 720))
                  (create_portrait_image fp (960, 720)) s) as (img & s' & Hg & Hgood).
      { apply wp_portrait_returns; [apply no_bound|apply default_sizes_fit|apply clean_False]. }
      rewrite (main_loop_write blur "samples" "portrait.jpg" _ _ w1 s img s');
        [|by rewrite Hw1|exact Hg].
      apply Harch.
      rewrite path_exists_print, path_exists_imwrite_ne, path_exists_print by done.
      by rewrite Hw1.
Qed.

Lemma X5_main_saves_portrait_and_architecture_witness :
  (exists image,
     good 960 720 image /\
     files (world (main id flat_oracle patched_world (seeded 1)))
     !! "samples/portrait.jpg"%string = Some (id image)) /\
  (exists image,
     good 800 1200 image /\
     files (world (main id flat_oracle patched_world (seeded 1)))
     !! "samples/architecture.jpg"%string = Some (id image)).
Proof.
  destruct (X5_main_saves_portrait_and_architecture id flat_oracle patched_world (seeded 1))
    as [Hp Ha].
  - by vm_compute.
  - by vm_compute.
  - split; [apply Hp|apply Ha]; by vm_compute.
Defined.

(** * Further properties: the generators *)

(** X6.  On a canvas of the given height, with the sky level in its range,
    the sky loop of [create_landscape_image] returns a canvas in which every
    pixel of a row [y < height//3] holds that row's colour
    [[intensity, intensity - 30, intensity - 60]], the same across the row,
    and every pixel of the other rows is as before. *)
Theorem X6_sky_rows_uniform fp height w image s :
  0 <= height -> good (Z.to_nat height) w image -> oracle_bounded fp ->
  exists image',
    outcome (landscape_sky fp height image) s = Ok image' /\
    good (Z.to_nat height) w image' /\
    forall y x,
      pixel image' y x =
      (fun old => if Z.of_nat y <? height / 3 then sky_pixel fp height y else old)
        <$> pixel image y x.
Proof.
  intros Hh Hi Hfp.
  destruct (outcome_returns _ _ s
              (wp_landscape_sky_exact fp False (no_bound fp) height w image s Hi Hh
                 (clean_False s))) as (image' & Hout & Hgood & Hrw).
  exists image'. split; [done|]. split; [done|].
  intros y x. rewrite Hrw.
  destruct (Z.ltb_spec (Z.of_nat y) (height / 3)); [|done].
  by rewrite sky_pixel_fits.
Qed.

Lemma X6_sky_rows_uniform_witness :
  exists image',
    outcome (landscape_sky flat_oracle 6 (filled 6 2 3 0)) (seeded 1) = Ok image' /\
    good (Z.to_nat 6) 2 image' /\
    forall y x,
      pixel image' y x =
      (fun old => if Z.of_nat y <? 6 / 3 then sky_pixel flat_oracle 6 y else old)
        <$> pixel (filled 6 2 3 0) y x.
Proof.
  apply (X6_sky_rows_uniform flat_oracle 6 2 (filled 6 2 3 0) (seeded 1)).
  - lia.
  - apply (good_filled 6 2). unfold in_uint8. lia.
  - exact flat_oracle_bounded.
Defined.

(** X7.  On a canvas that fits (both sides under 2^29), with the backdrop
    level in its range, [portrait_before_noise] returns an image of that
    size in which every pixel inside the face circle holds the one face
    colour (three draws from 180..219) and every other pixel holds the
    backdrop colour of its position,
    [[intensity, intensity - 20, intensity - 40]]. *)
Theorem X7_portrait_before_noise_pixels fp height width s :
  fits height width -> oracle_bounded fp ->
  exists image face_color,
    outcome (portrait_before_noise fp (height, width)) s = Ok image /\
    good (Z.to_nat height) (Z.to_nat width) image /\
    length face_color = 3%nat /\
    Forall (fun v => 180 <= v <= 219) face_color /\
    forall y x : nat,
      Z.of_nat y < height -> Z.of_nat x < width ->
      pixel image y x
      = Some (if face_mask height width y x then face_color
              else backdrop_pixel fp height width y x).
Proof.
  intros Hfit Hfp.
  destruct (portrait_before_noise_run fp height width s Hfit)
    as (image & s' & Hrun & Hgood & Hpx).
  exists image, (map (randint_at 180 220 s) [0; 1; 2]%nat).
  split; [unfold outcome; by rewrite Hrun|].
  split; [done|]. split; [done|]. split; [apply face_color_range|].
  intros y x Hy Hx. rewrite Hpx by done.
  destruct (face_mask height width y x); [done|].
  by rewrite backdrop_pixel_fits.
Qed.

Lemma X7_portrait_before_noise_pixels_witness :
  exists image face_color,
    outcome (portrait_before_noise flat_oracle (8, 6)) (seeded 5) = Ok image /\
    good (Z.to_nat 8) (Z.to_nat 6) image /\
    length face_color = 3%nat /\
    Forall (fun v => 180 <= v <= 219) face_color /\
    forall y x : nat,
      Z.of_nat y < 8 -> Z.of_nat x < 6 ->
      pixel image y x
      = Some (if face_mask 8 6 y x then face_color else backdrop_pixel flat_oracle 8 6 y x).
Proof.
  apply (X7_portrait_before_noise_pixels flat_oracle 8 6 (seeded 5)).
  - unfold fits. lia.
  - exact flat_oracle_bounded.
Defined.



Lemma item_pixel a y x c px : pixel a y x = Some px -> item a y x c = nth c px 0.
Proof.
  unfold pixel, item. rewrite !nth_lookup.
  destruct (data a !! y) as [row|]; simpl; [|done]. by intros ->.
Qed.

Lemma nth_within lo hi (px : list Z) c :
  Forall (fun v => lo <= v <= hi) px -> (c < length px)%nat -> lo <= nth c px 0 <= hi.
Proof.
  intros H Hc. rewrite Forall_lookup in H.
  destruct (lookup_lt_is_Some_2 px c Hc) as [v Hv].
  rewrite nth_lookup, Hv. simpl. eauto.
Qed.

Lemma randint_at_range low high s k :
  low < high -> low <= randint_at low high s k <= high - 1.
Proof.
  intros H. unfold randint_at.
  pose proof (Z.mod_pos_bound (raw s (pos s + k)%nat) (high - low)). lia.
Qed.

(** The noise pass on a whole image. *)
Lemma add_noise_run low high height width image s :
  low < high -> fits height width ->
  good (Z.to_nat height) (Z.to_nat width) image ->
  exists image',
    outcome (add_noise low high height width image) s = Ok image' /\
    good (Z.to_nat height) (Z.to_nat width) image' /\
    forall y x c : nat,
      (y < Z.to_nat height)%nat -> (x < Z.to_nat width)%nat -> (c < 3)%nat ->
      item image' y x c =
      np_clip 0 255 (item image y x c
                     + randint_at low high s ((y * Z.to_nat width + x) * 3 + c)).
Proof.
  intros Hlt Hfit Hi. pose proof (fits_noise _ _ Hfit) as Hsize.
  assert (Hwp : wp (add_noise low high height width image) s
                  (returns False (good (Z.to_nat height) (Z.to_nat width)))).
  { unfold add_noise.
    eapply wp_bind_returns; [apply wp_randint_3d; try done; apply clean_False|].
    intros noise s1 Hn Hs1.
    eapply wp_returns_mono; [by eapply wp_add_clip_uint8|]. by intros a' [_ ?]. }
  apply outcome_returns in Hwp as (image' & Hout & Hgood).
  exists image'. split; [done|]. split; [done|].
  intros y x c Hy Hx Hc.
  destruct (add_noise_item low high height width image s y x c)
    as (image'' & Hout' & _ & Hit); try done.
  rewrite Hout in Hout'. by injection Hout' as <-.
Qed.

(** X9.  On a canvas that fits (both sides under 2^29)
    [create_portrait_image] returns an image in which every channel of every
    pixel of the face circle is the face colour's channel plus a noise of
    -15..14, unclipped: it lies in [165, 233], the clamp of the noise pass
    never acts on the face. *)
Theorem X9_portrait_face_not_saturated fp height width s :
  fits height width ->
  exists image face_color,
    outcome (create_portrait_image fp (height, width)) s = Ok image /\
    good (Z.to_nat height) (Z.to_nat width) image /\
    length face_color = 3%nat /\
    Forall (fun v => 180 <= v <= 219) face_color /\
    forall y x c : nat,
      Z.of_nat y < height -> Z.of_nat x < width -> (c < 3)%nat ->
      face_mask height width y x = true ->
      -15 <= item image y x c - nth c face_color 0 <= 14 /\
      165 <= item image y x c <= 233.
Proof.
  intros Hfit.
  destruct (portrait_before_noise_run fp height width s Hfit)
    as (pre & s1 & Hrun & Hgood & Hpx).
  destruct (add_noise_run (-15) 15 height width pre s1) as (image & Hout & Hg & Hit);
    [lia|done|done|].
  pose proof (face_color_range s) as Hr.
  exists image, (map (randint_at 180 220 s) [0; 1; 2]%nat). split.
  { unfold create_portrait_image, outcome, bind. rewrite Hrun. exact Hout. }
  split; [done|]. split; [done|]. split; [done|].
  intros y x c Hy Hx Hc Hm. rewrite Hit by lia.
  rewrite (item_pixel pre y x c (map (randint_at 180 220 s) [0; 1; 2]%nat))
    by (by rewrite Hpx, Hm).
  pose proof (nth_within 180 219 _ c Hr ltac:(simpl; lia)).
  pose proof (randint_at_range (-15) 15 s1 ((y * Z.to_nat width + x) * 3 + c) ltac:(lia)).
  unfold np_clip. lia.
Qed.

Lemma X9_portrait_face_not_saturated_witness :
  exists image face_color,
    outcome (create_portrait_image flat_oracle (8, 6)) (seeded 5) = Ok image /\
    good (Z.to_nat 8) (Z.to_nat 6) image /\
    length face_color = 3%nat /\
    Forall (fun v => 180 <= v <= 219) face_color /\
    forall y x c : nat,
      Z.of_nat y < 8 -> Z.of_nat x < 6 -> (c < 3)%nat ->
      face_mask 8 6 y x = true ->
      -15 <= item image y x c - nth c face_color 0 <= 14 /\
      165 <= item image y x c <= 233.
Proof.
  apply (X9_portrait_face_not_saturated flat_oracle 8 6 (seeded 5)). unfold fits. lia.
Defined.

Lemma within_filled lo hi h w v : lo <= v <= hi -> within lo hi (filled h w 3 v).
Proof.
  intros Hv y x px Hpx. unfold pixel, filled in Hpx. cbn [data] in Hpx.
  apply bind_Some in Hpx as (row & Hrow & Hpx).
  apply lookup_replicate in Hrow as [-> _].
  apply lookup_replicate in Hpx as [-> _].
  by apply Forall_replicate.
Qed.

Lemma within_paint lo hi sel v a :
  within lo hi a -> Forall (fun c => lo <= c <= hi) v ->
  within lo hi (paint sel (fun _ _ => v) a).
Proof.
  intros Ha Hv y x px. rewrite pixel_paint.
  destruct (pixel a y x) as [old|] eqn:Hold; simpl; [|done].
  intros [= <-]. destruct (sel y x); eauto.
Qed.

Lemma item_within lo hi h w a y x c :
  good h w a -> within lo hi a -> (y < h)%nat -> (x < w)%nat -> (c < 3)%nat ->
  lo <= item a y x c <= hi.
Proof.
  intros Hg Hwi Hy Hx Hc.
  destruct (pixel_good h w a y x Hg Hy Hx) as (px & Hpx & Hlen & _).
  rewrite (item_pixel a y x c px Hpx). apply nth_within; [by eapply Hwi|lia].
Qed.

Section Architecture_ranges.

Variable G : Prop.

(** A region written with a colour of channels in [40, 220]. *)
Lemma wp_setitem_region_within h w a ys xs v s :
  good h w a -> within 40 220 a -> length v = 3%nat ->
  Forall (fun c => 40 <= c <= 220) v -> clean G s ->
  wp (setitem_region a ys xs v) s (returns G (fun a' => good h w a' /\ within 40 220 a')).
Proof.
  intros Ha Hwi Hlen Hv Hs.
  assert (Hfit : Forall in_uint8 v).
  { eapply Forall_impl; [exact Hv|]. unfold in_uint8. simpl. lia. }
  eapply wp_returns_mono; [by apply (wp_setitem_region G h w)|].
  intros a' [-> Ha']. split; [done|].
  rewrite map_to_uint8_id by done. by apply within_paint.
Qed.

Lemma wp_architecture_stripes_within height width image s :
  8 <= width -> good (Z.to_nat height) (Z.to_nat width) image -> within 40 220 image ->
  clean G s ->
  wp (architecture_stripes height width image) s
     (returns G (fun a => good (Z.to_nat height) (Z.to_nat width) a /\ within 40 220 a)).
Proof.
  intros Hw Hi Hwi Hs. unfold architecture_stripes.
  destruct (py_range_pos 0 width (width / 8 * 2) (stripe_step _ Hw)) as (l & -> & _).
  apply wp_bind, wp_lift.
  apply (wp_for_returns G (fun a => good (Z.to_nat height) (Z.to_nat width) a /\
                                    within 40 220 a)); [|done|done].
  intros i a t _ [Ha Hwa] Ht.
  eapply wp_bind_returns; [by apply wp_randint|]. intros c t' Hc Ht'. simpl in Hc.
  apply wp_setitem_region_within; try done. repeat constructor; lia.
Qed.

Lemma wp_architecture_floors_within height width image s :
  12 <= height -> good (Z.to_nat height) (Z.to_nat width) image -> within 40 220 image ->
  clean G s ->
  wp (architecture_floors height width image) s
     (returns G (fun a => good (Z.to_nat height) (Z.to_nat width) a /\ within 40 220 a)).
Proof.
  intros Hh Hi Hwi Hs. unfold architecture_floors.
  destruct (py_range_pos (height / 12) height (height / 12) (floor_step _ Hh))
    as (l & -> & _).
  apply wp_bind, wp_lift.
  apply (wp_for_returns G (fun a => good (Z.to_nat height) (Z.to_nat width) a /\
                                    within 40 220 a)); [|done|done].
  intros y a t _ [Ha Hwa] Ht. destruct (y <? height); [|by apply wp_ret_returns].
  apply wp_setitem_region_within; try done. repeat constructor; lia.
Qed.

Lemma wp_architecture_windows_within height width image s :
  12 <= height -> 8 <= width ->
  good (Z.to_nat height) (Z.to_nat width) image -> within 40 220 image -> clean G s ->
  wp (architecture_windows height width image) s
     (returns G (fun a => good (Z.to_nat height) (Z.to_nat width) a /\ within 40 220 a)).
Proof.
  intros Hh Hw Hi Hwi Hs. unfold architecture_windows.
  destruct (py_range_pos 0 width (width / 8 * 2) (stripe_step _ Hw)) as (l & -> & _).
  apply wp_bind, wp_lift.
  apply (wp_for_returns G (fun a => good (Z.to_nat height) (Z.to_nat width) a /\
                                    within 40 220 a)); [|done|done].
  intros building a t _ [Ha Hwa] Ht.
  destruct (py_range_pos (height / 12) (height - height / 12) (height / 12)
              (floor_step _ Hh)) as (l' & -> & _).
  apply wp_bind, wp_lift.
  apply (wp_for_returns G (fun a => good (Z.to_nat height) (Z.to_nat width) a /\
                                    within 40 220 a)); [|done|done].
  intros floor b u _ [Hb Hwb] Hu. unfold architecture_window.
  destruct (window_rect height width building floor) as [[[wx wy] ww] wh].
  destruct (window_drawn height width building floor); [|by apply wp_ret_returns].
  eapply wp_bind_returns; [by apply wp_random_gt_03|]. intros lit u' _ Hu'.
  apply wp_setitem_region_within; try done; destruct lit; try done;
    repeat constructor; lia.
Qed.

End Architecture_ranges.

(** X10.  On a canvas that fits (both sides under 2^29) with a height of
    at least 12 and a width of at least 8, [create_architecture_image]
    returns an image of that size whose
    channels all lie in [32, 227]: before the noise every channel is in
    [40, 220] (base 120, stripes 50..179, floor lines 60, windows 40..220),
    the noise adds -8..7, and the clamp never acts. *)
Theorem X10_architecture_channels height width s :
  12 <= height -> 8 <= width -> fits height width ->
  exists image,
    outcome (create_architecture_image (height, width)) s = Ok image /\
    good (Z.to_nat height) (Z.to_nat width) image /\
    forall y x c : nat,
      Z.of_nat y < height -> Z.of_nat x < width -> (c < 3)%nat ->
      32 <= item image y x c <= 227.
Proof.
  intros Hh Hw Hfit.
  assert (Hwp : wp (image <- np_full height width 3 120 ;;
                    image <- architecture_stripes height width image ;;
                    image <- architecture_floors height width image ;;
                    architecture_windows height width image) s
                  (returns False (fun a => good (Z.to_nat height) (Z.to_nat width) a /\
                                           within 40 220 a))).
  { eapply wp_bind_returns.
    { apply (wp_np_full_exact False); [done|by unfold in_uint8|apply clean_False]. }
    intros a0 s0 -> Hs0.
    eapply wp_bind_returns.
    { apply wp_architecture_stripes_within; [done|by apply good_filled|
                                             by apply within_filled|done]. }
    intros a1 s1 [Ha1 Hw1] Hs1.
    eapply wp_bind_returns; [by apply wp_architecture_floors_within|].
    intros a2 s2 [Ha2 Hw2] Hs2. by apply wp_architecture_windows_within. }
  apply run_returns in Hwp as (pre & s1 & Hrun & Hgood & Hwithin).
  destruct (add_noise_run (-8) 8 height width pre s1) as (image & Hout & Hg & Hit);
    [lia|done|done|].
  exists image. split.
  { unfold create_architecture_image, outcome, bind.
    unfold bind in Hrun.
    destruct (np_full height width 3 120 s) as [[a0|e0] t0]; [|done].
    destruct (architecture_stripes height width a0 t0) as [[a1|e1] t1]; [|done].
    destruct (architecture_floors height width a1 t1) as [[a2|e2] t2]; [|done].
    rewrite Hrun. exact Hout. }
  split; [done|].
  intros y x c Hy Hx Hc. rewrite Hit by lia.
  pose proof (item_within 40 220 _ _ pre y x c Hgood Hwithin ltac:(lia) ltac:(lia) Hc).
  pose proof (randint_at_range (-8) 8 s1 ((y * Z.to_nat width + x) * 3 + c) ltac:(lia)).
  unfold np_clip. lia.
Qed.

Lemma X10_architecture_channels_witness :
  exists image,
    outcome (create_architecture_image (800, 1200)) (seeded 5) = Ok image /\
    good (Z.to_nat 800) (Z.to_nat 1200) image /\
    forall y x c : nat,
      Z.of_nat y < 800 -> Z.of_nat x < 1200 -> (c < 3)%nat ->
      32 <= item image y x c <= 227.
Proof.
  apply (X10_architecture_channels 800 1200 (seeded 5)); [lia|lia|unfold fits; lia].
Defined.



(** On a canvas 1204 wide the fifth building starts at column 1200 and its
    windows are skipped. *)
Example last_building_skipped : window_drawn 800 1204 1200 66 = false.
Proof. reflexivity. Qed.

Lemma wp_setitem_channel_exact G h w a c v s :
  good h w a -> (c < 3)%nat -> (forall y x, in_uint8 (v y x)) -> clean G s ->
  wp (setitem_channel a c v) s
     (returns G (fun a' =>
        good h w a' /\
        forall y x k, (y < h)%nat -> (x < w)%nat -> (k < 3)%nat ->
          item a' y x k = if (k =? c)%nat then v y x else item a y x k)).
Proof.
  intros Ha Hc Hv Hs. unfold setitem_channel.
  rewrite (good_shape _ _ _ Ha). simpl.
  rewrite (proj2 (Nat.ltb_lt _ _) Hc).
  apply wp_bind. apply (wp_note_cast G); [intros _| |done].
  - apply Forall_concat.
    apply (Forall_imap_intro (fun _ => True)); [by apply Forall_forall|].
    intros y row _. apply (Forall_imap_intro (fun _ => True)); [by apply Forall_forall|].
    intros x _ _. apply Hv.
  - intros s' Hs'. apply wp_ret_returns; [done|]. split.
    + apply good_map_items; [done|]. intros y x c' old Hold.
      destruct (c' =? c)%nat; [apply to_uint8_range | done].
    + intros y x k Hy Hx Hk. rewrite (item_map_items h w) by done.
      destruct (k =? c)%nat; [|done]. by apply to_uint8_id.
Qed.

(** X12.  On any well-formed canvas [nature_background] returns a canvas of
    the same shape in which every pixel is overwritten, whatever it held:
    channel 0 is the blue value, channel 1 the green and channel 2 the red,
    each the base plus the scaled pattern, clamped into [0, 255] before it
    is stored. *)
Theorem X12_nature_background_channels fp h w height width image s :
  good h w image ->
  exists image',
    outcome (nature_background fp height width image) s = Ok image' /\
    good h w image' /\
    forall y x, (y < h)%nat -> (x < w)%nat ->
      item image' y x 0 = np_clip 0 255 (60 + pattern_scaled fp 20 width height y x) /\
      item image' y x 1 = np_clip 0 255 (120 + pattern_scaled fp 50 width height y x) /\
      item image' y x 2 = np_clip 0 255 (80 + pattern_scaled fp 30 width height y x).
Proof.
  intros Hi.
  assert (Hwp : wp (nature_background fp height width image) s
            (returns False (fun a =>
               good h w a /\
               forall y x, (y < h)%nat -> (x < w)%nat ->
                 item a y x 0 = np_clip 0 255 (60 + pattern_scaled fp 20 width height y x) /\
                 item a y x 1 = np_clip 0 255 (120 + pattern_scaled fp 50 width height y x) /\
                 item a y x 2 = np_clip 0 255 (80 + pattern_scaled fp 30 width height y x)))).
  { unfold nature_background. eapply wp_bind_returns.
    { apply (wp_setitem_channel_exact False h w); [done|lia| |apply clean_False].
      intros; apply np_clip_range. }
    intros a0 s0 [Ha0 H0] Hs0. eapply wp_bind_returns.
    { apply (wp_setitem_channel_exact False h w); [done|lia| |done].
      intros; apply np_clip_range. }
    intros a1 s1 [Ha1 H1] Hs1. eapply wp_returns_mono.
    { apply (wp_setitem_channel_exact False h w); [done|lia| |done].
      intros; apply np_clip_range. }
    intros a2 [Ha2 H2]. split; [done|]. intros y x Hy Hx.
    rewrite !H2, !H1, !H0 by lia. simpl. done. }
  apply outcome_returns in Hwp as (image' & Hout & Hgood & Hitems). eauto.
Qed.

Lemma X12_nature_background_channels_witness :
  exists image',
    outcome (nature_background flat_oracle 2 2 (filled 2 2 3 0)) (seeded 1) = Ok image' /\
    good 2 2 image' /\
    forall y x, (y < 2)%nat -> (x < 2)%nat ->
      item image' y x 0 = np_clip 0 255 (60 + pattern_scaled flat_oracle 20 2 2 y x) /\
      item image' y x 1 = np_clip 0 255 (120 + pattern_scaled flat_oracle 50 2 2 y x) /\
      item image' y x 2 = np_clip 0 255 (80 + pattern_scaled flat_oracle 30 2 2 y x).
Proof.
  apply (X12_nature_background_channels flat_oracle 2 2 2 2 (filled 2 2 3 0) (seeded 1)).
  apply (good_filled 2 2). unfold in_uint8. lia.
Defined.
